(** * Verification of the Douban review crawler (services/doubanCrawler.ts)

    A shallow embedding of [parseDoubanPage], [fetchViaLocalServer] and
    [crawlUserReviews], together with the parts of the JavaScript and DOM
    platform they call, followed by the properties of the paginated
    extraction pipeline.

    Layout:
    - [JS]: strings as sequences of UTF-16 code units and the string
      methods the crawler calls, exceptions;
    - [Dom]: element trees, the selectors the crawler uses, [querySelector],
      [textContent], [className], and the properties a form hides;
    - [Extract]: [parseDoubanPage];
    - [Crawl]: [fetchViaLocalServer] and [crawlUserReviews] over an abstract
      network;
    - [Proxy]: the [/fetch] route of the companion proxy;
    - [Views], [CrawlViews], [MoreViews], [Spec]: the notions the
      statements are written with;
    - the theorems. *)

From Stdlib Require Import ZArith List Bool Lia String Ascii DecimalString.
Import ListNotations.

Local Open Scope Z_scope.

(* ================================================================== *)
(** * JavaScript strings *)

Module JS.

(** A JavaScript string is a finite sequence of UTF-16 code units. *)
Definition jsstring := list Z.

(** Code units of one Unicode code point (surrogate pair above the BMP). *)
Definition utf16_of_codepoint (cp : Z) : jsstring :=
  if cp <? 65536 then [cp]
  else [55296 + (cp - 65536) / 1024; 56320 + (cp - 65536) mod 1024].

(** [utf16 need acc s] reads the UTF-8 bytes of the literal [s]; [need]
    continuation bytes are still expected for the code point accumulated in
    [acc].  It is only used to write the string literals of the source. *)
Fixpoint utf16 (need : nat) (acc : Z) (s : string) : jsstring :=
  match s with
  | EmptyString => []
  | String c s' =>
      let b := Z.of_N (N_of_ascii c) in
      match need with
      | O =>
          if b <? 128 then b :: utf16 0 0 s'
          else if b <? 224 then utf16 1 (b - 192) s'
          else if b <? 240 then utf16 2 (b - 224) s'
          else utf16 3 (b - 240) s'
      | S O => utf16_of_codepoint (acc * 64 + (b - 128)) ++ utf16 0 0 s'
      | S n => utf16 n (acc * 64 + (b - 128)) s'
      end
  end.

(** The string literal [s] of the source as a JavaScript string. *)
Definition lit (s : string) : jsstring := utf16 0 0 s.

(** Equality of strings, code unit by code unit. *)
Fixpoint eqb (a b : jsstring) : bool :=
  match a, b with
  | [], [] => true
  | x :: a', y :: b' => (x =? y) && eqb a' b'
  | _, _ => false
  end.

(** A string is truthy when it is not empty. *)
Definition truthy (s : jsstring) : bool :=
  match s with [] => false | _ :: _ => true end.

(** [String.prototype.startsWith]. *)
Fixpoint startsWith (p s : jsstring) : bool :=
  match p, s with
  | [], _ => true
  | x :: p', y :: s' => (x =? y) && startsWith p' s'
  | _ :: _, [] => false
  end.

(** [String.prototype.includes]. *)
Fixpoint includes (p s : jsstring) : bool :=
  startsWith p s ||
  match s with
  | [] => false
  | _ :: s' => includes p s'
  end.

(** WhiteSpace and LineTerminator code units: what [trim] removes and what
    the regular expression class [\s] matches. *)
Definition is_space (c : Z) : bool :=
  ((9 <=? c) && (c <=? 13)) || (c =? 32) || (c =? 160) || (c =? 5760)
  || ((8192 <=? c) && (c <=? 8202)) || (c =? 8232) || (c =? 8233)
  || (c =? 8239) || (c =? 8287) || (c =? 12288) || (c =? 65279).

Fixpoint trimStart (s : jsstring) : jsstring :=
  match s with
  | [] => []
  | c :: s' => if is_space c then trimStart s' else s
  end.

Definition trimEnd (s : jsstring) : jsstring := rev (trimStart (rev s)).

(** [String.prototype.trim]. *)
Definition trim (s : jsstring) : jsstring := trimEnd (trimStart s).

(** [s.replace(p, '')] with a string pattern: the first occurrence of [p]
    is removed. *)
Fixpoint removeFirst (p s : jsstring) : jsstring :=
  if startsWith p s then skipn (List.length p) s
  else match s with
       | [] => []
       | c :: s' => c :: removeFirst p s'
       end.

(** [s.split(/\s+/)]: the pieces between maximal runs of white space; [cur]
    holds the current piece reversed, [in_ws] tells whether the scan is
    inside a run. *)
Fixpoint split_ws (cur : jsstring) (in_ws : bool) (s : jsstring)
  : list jsstring :=
  match s with
  | [] => [rev cur]
  | c :: s' =>
      if is_space c then
        if in_ws then split_ws [] true s'
        else rev cur :: split_ws [] true s'
      else split_ws (c :: cur) false s'
  end.

Definition splitWhitespace (s : jsstring) : list jsstring :=
  split_ws [] false s.

(** Decimal rendering of an integer, as a template literal does. *)
Definition ofZ (n : Z) : jsstring := lit (NilZero.string_of_int (Z.to_int n)).

(** [toUpperCase], on the ASCII letters (the crawler applies it to the
    category names only). *)
Definition toUpperCase (s : jsstring) : jsstring :=
  map (fun c => if (97 <=? c) && (c <=? 122) then c - 32 else c) s.

(** The regular expression class [\d]. *)
Definition is_digit (c : Z) : bool := (48 <=? c) && (c <=? 57).

(** [parseInt] of a one-digit string. *)
Definition parseDigit (c : Z) : Z := c - 48.

(** A thrown [Error] value: only its [message] is ever read. *)
Record Error := mkError { message : jsstring }.

(** An evaluation that either yields a value or throws. *)
Inductive result (A : Type) : Type :=
| Ok (a : A)
| Thrown (e : Error).
Arguments Ok {A} a.
Arguments Thrown {A} e.

(** Sequencing: the statements after one that throws are not run. *)
Definition bind {A B : Type} (r : result A) (k : A -> result B) : result B :=
  match r with
  | Ok a => k a
  | Thrown e => Thrown e
  end.

Notation "x <- r ;; k" := (bind r (fun x => k))
  (at level 61, r at next level, right associativity).

(** What calling something that is not a function raises.  The wording
    of the message is the engine's; the crawler only logs it. *)
Definition TypeError_not_a_function (callee : string) : Error :=
  mkError (lit callee ++ lit " is not a function").

(** What a call with more arguments than the engine accepts raises. *)
Definition RangeError_arguments : Error :=
  mkError (lit "Maximum call stack size exceeded").

(** ** [encodeURIComponent] *)

(** The characters [encodeURIComponent] leaves as they are:
    letters, digits and [- _ . ! ~ * ' ( )]. *)
Definition uri_unreserved (c : Z) : bool :=
  ((65 <=? c) && (c <=? 90)) || ((97 <=? c) && (c <=? 122))
  || ((48 <=? c) && (c <=? 57))
  || (c =? 45) || (c =? 95) || (c =? 46) || (c =? 33) || (c =? 126)
  || (c =? 42) || (c =? 39) || (c =? 40) || (c =? 41).

Definition hex_digit (d : Z) : Z := if d <? 10 then 48 + d else 55 + d.

(** One UTF-8 byte, percent-encoded. *)
Definition percent (b : Z) : jsstring := [37; hex_digit (b / 16); hex_digit (b mod 16)].

Definition utf8_of_codepoint (cp : Z) : list Z :=
  if cp <? 128 then [cp]
  else if cp <? 2048 then [192 + cp / 64; 128 + cp mod 64]
  else if cp <? 65536 then
    [224 + cp / 4096; 128 + (cp / 64) mod 64; 128 + cp mod 64]
  else [240 + cp / 262144; 128 + (cp / 4096) mod 64;
        128 + (cp / 64) mod 64; 128 + cp mod 64].

Definition escape_codepoint (cp : Z) : jsstring :=
  flat_map percent (utf8_of_codepoint cp).

Definition is_high_surrogate (c : Z) : bool := (55296 <=? c) && (c <=? 56319).
Definition is_low_surrogate (c : Z) : bool := (56320 <=? c) && (c <=? 57343).

Definition URIError : Error := mkError (lit "URI malformed").

Definition prepend (p : jsstring) (r : result jsstring) : result jsstring :=
  match r with
  | Ok s => Ok (p ++ s)
  | Thrown e => Thrown e
  end.

(** [encodeURIComponent s]: throws a URIError on a surrogate that is not
    part of a pair. *)
Fixpoint encodeURIComponent (s : jsstring) : result jsstring :=
  match s with
  | [] => Ok []
  | c :: rest =>
      if uri_unreserved c then prepend [c] (encodeURIComponent rest)
      else if is_low_surrogate c then Thrown URIError
      else if is_high_surrogate c then
        match rest with
        | d :: rest' =>
            if is_low_surrogate d then
              prepend
                (escape_codepoint (65536 + (c - 55296) * 1024 + (d - 56320)))
                (encodeURIComponent rest')
            else Thrown URIError
        | [] => Thrown URIError
        end
      else prepend (escape_codepoint c) (encodeURIComponent rest)
  end.

End JS.

Arguments JS.lit s%_string.
Local Abbreviation js := JS.lit.
Local Abbreviation jsstring := JS.jsstring.

(* ================================================================== *)
(** * The DOM: element trees and selectors *)

Module Dom.

(** The namespace of an element.  The HTML parser puts [svg] and [math]
    subtrees in their own namespaces; it matters below for [className]. *)
Inductive namespace := HTML | SVG | MathML.

(** A node of a parsed document: an element with its local name, the value
    of its [class] attribute (empty when the attribute is absent), the
    names of its controls and its children, or a text node.

    [controls] matters for [form] elements only: it lists the names under
    which the form exposes its controls as properties (the ids and names
    of its listed controls and images).  Such a property overrides the
    built-in property of the same name: the form
    [<form><input name='textContent'></form>] has the input, not a
    string, as its [textContent].

    Other attributes and other kinds of node are not observed by the
    crawler. *)
#[warnings="-register-all"]
Inductive node :=
| Element (ns : namespace) (localName : jsstring) (classAttr : jsstring)
          (controls : list jsstring) (children : list node)
| Text (data : jsstring).

(** A parsed document: its document element and whether it is in quirks
    mode (where class selectors ignore ASCII case). *)
Record document := mkDocument { quirks : bool; documentElement : node }.

(** An element together with its ancestors, nearest first: what a
    selector needs to decide a match. *)
Record located := mkLocated { ancestors : list node; element : node }.

(** The value of the [class] attribute of an element. *)
Definition class_of (n : node) : jsstring :=
  match n with
  | Element _ _ cls _ _ => cls
  | Text _ => []
  end.

Definition children_of (n : node) : list node :=
  match n with
  | Element _ _ _ _ kids => kids
  | Text _ => []
  end.

(** [Node.textContent] of an element: its text descendants in document
    order, concatenated. *)
Fixpoint textContent (n : node) : jsstring :=
  match n with
  | Text d => d
  | Element _ _ _ _ kids => flat_map textContent kids
  end.

(** The elements of the subtree of [n], itself first, in document order. *)
Fixpoint subtree (anc : list node) (n : node) : list located :=
  match n with
  | Text _ => []
  | Element _ _ _ _ kids =>
      mkLocated anc n :: flat_map (subtree (n :: anc)) kids
  end.

(** The proper descendants of an element, in document order. *)
Definition descendants (it : located) : list located :=
  flat_map (subtree (element it :: ancestors it)) (children_of (element it)).

(** ** Selectors *)

(** The simple selectors the crawler writes: [name], [.name] and
    [[class^="prefix"]]. *)
Inductive simple :=
| Tag (name : jsstring)
| Class (name : jsstring)
| ClassPrefix (prefix : jsstring).

(** A complex selector [s1 s2 ... sn] (descendant combinators only), and a
    selector list [c1, c2, ...]. *)
Definition complex := list simple.
Definition selector := list complex.

(** ASCII white space, which separates the tokens of a [class] attribute. *)
Definition is_ascii_space (c : Z) : bool :=
  (c =? 9) || (c =? 10) || (c =? 12) || (c =? 13) || (c =? 32).

(** The tokens of a [class] attribute value; [cur] is the current token,
    reversed. *)
Fixpoint class_tokens (cur : jsstring) (s : jsstring) : list jsstring :=
  match s with
  | [] => match cur with [] => [] | _ => [rev cur] end
  | c :: s' =>
      if is_ascii_space c then
        match cur with
        | [] => class_tokens [] s'
        | _ => rev cur :: class_tokens [] s'
        end
      else class_tokens (c :: cur) s'
  end.

Definition classList (classAttr : jsstring) : list jsstring :=
  class_tokens [] classAttr.

Definition ascii_lower (s : jsstring) : jsstring :=
  map (fun c => if (65 <=? c) && (c <=? 90) then c + 32 else c) s.

Definition class_name_eqb (quirks : bool) (a b : jsstring) : bool :=
  if quirks then JS.eqb (ascii_lower a) (ascii_lower b) else JS.eqb a b.

Definition matches_simple (quirks : bool) (s : simple) (n : node) : bool :=
  match n with
  | Text _ => false
  | Element _ name cls _ _ =>
      match s with
      | Tag t => JS.eqb t name
      | Class c => existsb (class_name_eqb quirks c) (classList cls)
      | ClassPrefix p => JS.truthy p && JS.startsWith p cls
      end
  end.

(** The first ancestor matching [s], if any, leaves the ancestors above it
    for the rest of the chain. *)
Fixpoint above_match (quirks : bool) (s : simple) (anc : list node)
  : option (list node) :=
  match anc with
  | [] => None
  | a :: anc' =>
      if matches_simple quirks s a then Some anc'
      else above_match quirks s anc'
  end.

(** [matches_ancestors q chain anc]: the simple selectors [chain]
    (innermost first) are matched, in this order, by ancestors taken from
    [anc] going up; taking the nearest match each time loses nothing with
    descendant combinators. *)
Fixpoint matches_ancestors (quirks : bool) (chain : list simple)
    (anc : list node) : bool :=
  match chain with
  | [] => true
  | s :: chain' =>
      match above_match quirks s anc with
      | None => false
      | Some anc' => matches_ancestors quirks chain' anc'
      end
  end.

Definition matches_complex (quirks : bool) (c : complex) (it : located)
  : bool :=
  match rev c with
  | [] => false
  | s :: chain =>
      matches_simple quirks s (element it)
      && matches_ancestors quirks chain (ancestors it)
  end.

Definition matches (quirks : bool) (sel : selector) (it : located) : bool :=
  existsb (fun c => matches_complex quirks c it) sel.

(** [Element.querySelector]: the first proper descendant, in document
    order, that matches the selector.  The selector is matched against the
    whole document: its leading parts may be matched by the element itself
    or by its ancestors. *)
Definition querySelector (quirks : bool) (sel : selector) (it : located)
  : option located :=
  find (matches quirks sel) (descendants it).

(** All elements of a document, in document order. *)
Definition elements (d : document) : list located :=
  subtree [] (documentElement d).

(** [Document.querySelector] and [Document.querySelectorAll].  The
    document comes from [DOMParser] and has no window: the names of its
    elements do not hide its own methods, as those of its controls do on
    a form (see [shadows]). *)
Definition documentQuerySelector (d : document) (sel : selector)
  : option located :=
  find (matches (quirks d) sel) (elements d).

Definition querySelectorAll (d : document) (sel : selector) : list located :=
  filter (matches (quirks d) sel) (elements d).

(** [n[property]] is a control of the form [n], not the built-in
    property: [n] is an HTML [form] element and one of its controls has
    this name. *)
Definition shadows (n : node) (property : jsstring) : bool :=
  match n with
  | Element HTML name _ controls _ =>
      JS.eqb name (js "form") && existsb (JS.eqb property) controls
  | _ => false
  end.

(** [Element.className] when it is a string.  On HTML (and MathML)
    elements it is the value of the [class] attribute.  It is not a
    string ([None]) on SVG elements, where it is an [SVGAnimatedString]
    object, and on a form with a control named [className], where it is
    that control. *)
Definition className (n : node) : option jsstring :=
  if shadows n (js "className") then None
  else
    match n with
    | Element SVG _ _ _ _ => None
    | Element _ _ cls _ _ => Some cls
    | Text _ => None
    end.

(** The [textContent] property of an element when it is a string: it is
    a control on a form with a control named [textContent]. *)
Definition textContentProperty (n : node) : option jsstring :=
  if shadows n (js "textContent") then None else Some (textContent n).

End Dom.

(* ================================================================== *)
(** * Extraction: [parseDoubanPage] *)

Module Extract.
Import JS Dom.

(** The [Category] union type ['movie' | 'book' | 'music']. *)
Inductive Category := Movie | Book | Music.

Definition category_name (c : Category) : jsstring :=
  match c with
  | Movie => js "movie"
  | Book => js "book"
  | Music => js "music"
  end.

(** [ReviewItem], with the fields [parseDoubanPage] fills in. *)
Record ReviewItem := mkReviewItem {
  title : jsstring;
  rating : Z;
  comment : jsstring;
  date : jsstring;
  category : Category;
  tags : list jsstring
}.

(** What [parseDoubanPage] writes to the console. *)
Inductive console_entry :=
| ConsoleWarn (msg : jsstring)
| ConsoleError (msg : jsstring) (e : Error).

(** The local state of one call: the [data] array and the console. *)
Record parse_state := mkParseState {
  data : list ReviewItem;
  console : list console_entry
}.

(** ** The selectors of the source *)

Definition sel_page_title : selector := [[Tag (js "title")]].
Definition sel_items : selector :=
  [[Class (js "item")]; [Class (js "subject-item")]].
Definition sel_title_primary : selector := [[Class (js "title"); Tag (js "a")]].
Definition sel_title_secondary : selector :=
  [[Class (js "info"); Tag (js "h2"); Tag (js "a")]].
Definition sel_rating : selector := [[ClassPrefix (js "rating")]].
Definition sel_comment_primary : selector := [[Class (js "comment")]].
Definition sel_comment_secondary : selector := [[Class (js "short-note")]].
Definition sel_date : selector := [[Class (js "date")]].
Definition sel_tags : selector := [[Class (js "tags")]].

(** ** The platform *)

(** What [parseDoubanPage] takes from the browser it runs in. *)
Record platform := mkPlatform {
  (** [new DOMParser().parseFromString(html, "text/html")]: the HTML
      parser turns any string into a document. *)
  parseFromString : jsstring -> document;
  (** The most arguments the call of line 53 can pass: spreading a longer
      array into a call throws a [RangeError]. *)
  max_arguments : nat
}.

(** ** Field resolution *)

(** [item.querySelector(sel)].  When the item is a form with a control
    named [querySelector], the property is that control and the call
    throws. *)
Definition item_querySelector (q : bool) (sel : selector) (item : located)
  : result (option located) :=
  if shadows (element item) (js "querySelector")
  then Thrown (TypeError_not_a_function "item.querySelector")
  else Ok (querySelector q sel item).

(** [a || b] on two element lookups: [b] is looked up only when [a] found
    no element. *)
Definition orElse (a b : result (option located)) : result (option located) :=
  match a with
  | Thrown e => Thrown e
  | Ok (Some e) => Ok (Some e)
  | Ok None => b
  end.

(** [el?.textContent?.trim() || ""].  When [el] is a form with a control
    named [textContent], the property is that control, which has no
    [trim], and the call throws. *)
Definition trimmedText (callee : string) (el : option located)
  : result jsstring :=
  match el with
  | None => Ok []
  | Some e =>
      match textContentProperty (element e) with
      | Some text => Ok (trim text)
      | None => Thrown (TypeError_not_a_function callee)
      end
  end.

(** Lines 28-29. *)
Definition item_title (q : bool) (item : located) : result jsstring :=
  titleEl <- orElse (item_querySelector q sel_title_primary item)
                    (item_querySelector q sel_title_secondary item) ;;
  trimmedText "titleEl?.textContent?.trim" titleEl.

(** Lines 41-42. *)
Definition item_comment (q : bool) (item : located) : result jsstring :=
  commentEl <- orElse (item_querySelector q sel_comment_primary item)
                      (item_querySelector q sel_comment_secondary item) ;;
  trimmedText "commentEl?.textContent?.trim" commentEl.

(** Lines 45-46. *)
Definition item_date (q : bool) (item : located) : result jsstring :=
  dateEl <- item_querySelector q sel_date item ;;
  trimmedText "dateEl?.textContent?.trim" dateEl.

(** The pattern [rating(\d)-t] tried at the start of [s]: the digit it
    captures. *)
Definition rating_at (s : jsstring) : option Z :=
  if startsWith (js "rating") s then
    match skipn 6 s with
    | d :: rest =>
        if is_digit d && startsWith (js "-t") rest then Some d else None
    | [] => None
    end
  else None.

(** [s.match(/rating(\d)-t/)]: the capture of the leftmost match. *)
Fixpoint match_rating (s : jsstring) : option Z :=
  match rating_at s with
  | Some d => Some d
  | None =>
      match s with
      | [] => None
      | _ :: s' => match_rating s'
      end
  end.

(** What [ratingSpan.className.match(...)] raises when the class name is
    not a string. *)
Definition TypeError_match : Error :=
  TypeError_not_a_function "ratingSpan.className.match".

(** Lines 32-37: [rating] stays [0] unless the first element whose [class]
    attribute begins with [rating] has a class name the pattern matches.
    When that element's [className] is not a string, [.match] is not a
    function and the call throws. *)
Definition item_rating (q : bool) (item : located) : result Z :=
  ratingSpan <- item_querySelector q sel_rating item ;;
  match ratingSpan with
  | None => Ok 0
  | Some span =>
      match className (element span) with
      | None => Thrown TypeError_match
      | Some cls =>
          match match_rating cls with
          | Some d => Ok (parseDigit d)
          | None => Ok 0
          end
      end
  end.

(** Lines 49-54.  A [textContent] that is a control is truthy and has no
    [replace]; more pieces than a call accepts arguments make
    [tags.push(...)] throw. *)
Definition item_tags (limit : nat) (q : bool) (item : located)
  : result (list jsstring) :=
  tagEl <- item_querySelector q sel_tags item ;;
  match tagEl with
  | None => Ok []
  | Some el =>
      match textContentProperty (element el) with
      | None => Thrown (TypeError_not_a_function "tagEl.textContent.replace")
      | Some text =>
          if truthy text then
            let tagText := trim (removeFirst (js "标签: ") text) in
            if truthy tagText then
              let pieces := splitWhitespace tagText in
              if (limit <? List.length pieces)%nat
              then Thrown RangeError_arguments
              else Ok pieces
            else Ok []
          else Ok []
      end
  end.

(** The body of the [try] block for one item: the record it pushes, if
    any, or the exception it throws.  Nothing is pushed before the last
    statement, so a throw leaves [data] as it was. *)
Definition item_try (limit : nat) (q : bool) (cat : Category)
    (item : located) : result (option ReviewItem) :=
  title <- item_title q item ;;
  rating <- item_rating q item ;;
  comment <- item_comment q item ;;
  date <- item_date q item ;;
  tags <- item_tags limit q item ;;
  if truthy title
  then Ok (Some (mkReviewItem title rating comment date cat tags))
  else Ok None.

(** The callback given to [forEach]: the [try] block and its [catch]. *)
Definition item_callback (limit : nat) (q : bool) (cat : Category)
    (item : located) (st : parse_state) : result parse_state :=
  match item_try limit q cat item with
  | Ok (Some r) => Ok (mkParseState (data st ++ [r]) (console st))
  | Ok None => Ok st
  | Thrown e =>
      Ok (mkParseState (data st)
            (console st ++ [ConsoleError (js "解析单条数据失败") e]))
  end.

(** [Array.prototype.forEach] / [NodeList.forEach]: an exception of the
    callback ends the iteration and propagates. *)
Fixpoint forEach {A S : Type} (f : A -> S -> result S) (l : list A) (st : S)
  : result S :=
  match l with
  | [] => Ok st
  | x :: l' =>
      match f x st with
      | Ok st' => forEach f l' st'
      | Thrown e => Thrown e
      end
  end.

(** Lines 15-18: the warning about a block page or login page title. *)
Definition title_check (doc : document) : list console_entry :=
  let title :=
    match documentQuerySelector doc sel_page_title with
    | Some e => textContent (element e)
    | None => []
    end in
  if includes (js "禁止访问") title || includes (js "登录豆瓣") title
  then [ConsoleWarn (js "[Douban Block] 标题提示异常: " ++ title)]
  else [].

(** The body of [parseDoubanPage] once the markup is parsed. *)
Definition parseDocument (limit : nat) (doc : document) (cat : Category)
  : result parse_state :=
  let st := mkParseState [] (title_check doc) in
  let items := querySelectorAll doc sel_items in
  forEach (item_callback limit (quirks doc) cat) items st.

Definition parseDoubanPage_full (host : platform) (html : jsstring)
    (cat : Category) : result parse_state :=
  parseDocument (max_arguments host) (parseFromString host html) cat.

(** [parseDoubanPage]: the array it returns, or the exception it throws. *)
Definition parseDoubanPage (host : platform) (html : jsstring)
    (cat : Category) : result (list ReviewItem) :=
  st <- parseDoubanPage_full host html cat ;;
  Ok (data st).

End Extract.

(* ================================================================== *)
(** * Fetching and the crawl loop *)

Module Crawl.
Import JS Dom Extract.

(** What the crawler reads of a [Response]: [ok], [status] and the outcome
    of [text()]. *)
Record Response := mkResponse {
  ok : bool;
  status : Z;
  text : result jsstring
}.

(** The promise returned by [fetch] is rejected or resolves to a response. *)
Inductive fetch_outcome :=
| Rejected (e : Error)
| Resolved (r : Response).

(** What a crawl does to the outside, in order: calls of [onLog], calls of
    [sleep], and calls of [fetchViaLocalServer] with the page address. *)
Inductive event :=
| Logged (msg : jsstring)
| Slept (ms : Z)
| Requested (url : jsstring).

(** How a block of statements completes. *)
Inductive completion :=
| Normal
| Break
| Throw (e : Error).

(** Whether the page loop goes on after an iteration. *)
Inductive control := Continue | Stop.

Definition maxPages : Z := 4.
Definition pageSize : Z := 15.
Definition categories : list Category := [Movie].

Definition proxyError : Error :=
  mkError (js "❌ 无法连接本地代理！请确保在终端运行了 'node proxy.js'").
Definition forbiddenError : Error :=
  mkError (js "403 Forbidden: IP被豆瓣限制或Cookie无效").
Definition teapotError : Error :=
  mkError (js "418 I'm a teapot: 豆瓣认为你是机器人，IP暂时被封").
Definition statusError (st : Z) (errText : jsstring) : Error :=
  mkError (js "请求失败 (Status " ++ ofZ st ++ js "): " ++ errText).
Definition blockedError : Error :=
  mkError (js "豆瓣反爬拦截 (IP 频率过高)").
Definition emptyError : Error :=
  mkError (js "数据为空。可能是 IP 被封、UID 错误或用户开启了隐私保护。").

(** The condition of the [catch] clause of [fetchViaLocalServer]. *)
Definition is_connection_failure (e : Error) : bool :=
  includes (js "Failed to fetch") (message e)
  || includes (js "Connection refused") (message e).

Section Network.

(** The network: [fetch] answers a request from the state of the world and
    changes it. *)
Variable World : Type.
Variable fetch : jsstring -> World -> fetch_outcome * World.
Variable host : platform.

(** Lines 80-89: the [try] block of [fetchViaLocalServer], given the
    outcome of [fetch]. *)
Definition response_body (o : fetch_outcome) : result jsstring :=
  match o with
  | Rejected e => Thrown e
  | Resolved response =>
      if negb (ok response) then
        let errText :=
          match text response with
          | Ok t => t
          | Thrown _ => []
          end in
        if status response =? 403 then Thrown forbiddenError
        else if status response =? 418 then Thrown teapotError
        else Thrown (statusError (status response) errText)
      else text response
  end.

(** Lines 90-95: the [catch] clause. *)
Definition rethrow (r : result jsstring) : result jsstring :=
  match r with
  | Ok html => Ok html
  | Thrown e => if is_connection_failure e then Thrown proxyError else Thrown e
  end.

Definition fetchViaLocalServer (targetUrl cookie : jsstring) (w : World)
  : result jsstring * World :=
  let localProxy := js "/fetch" in
  match encodeURIComponent cookie with
  | Thrown e => (Thrown e, w)
  | Ok encodedCookie =>
      match encodeURIComponent targetUrl with
      | Thrown e => (Thrown e, w)
      | Ok encodedUrl =>
          let (o, w') :=
            fetch (localProxy ++ js "?url=" ++ encodedUrl
                   ++ js "&cookie=" ++ encodedCookie) w in
          (rethrow (response_body o), w')
      end
  end.

(** The state of one call of [crawlUserReviews]: the world, what was done
    so far, the [allReviews] array and the [start] offset of the category
    being crawled. *)
Record session := mkSession {
  world : World;
  trace : list event;
  allReviews : list ReviewItem;
  start : Z
}.

Definition emit (ev : event) (s : session) : session :=
  mkSession (world s) (trace s ++ [ev]) (allReviews s) (start s).

(** The log sink is a callback that records the message and returns; the
    time [sleep] takes is not modelled, only that it was called. *)
Definition onLog (msg : jsstring) : session -> session := emit (Logged msg).
Definition sleep (ms : Z) : session -> session := emit (Slept ms).

Definition subdomain (cat : Category) : jsstring :=
  match cat with
  | Movie => js "movie"
  | Book => js "book"
  | Music => js "music"
  end.

(** Line 126. *)
Definition page_url (cat : Category) (uid : jsstring) (start : Z) : jsstring :=
  js "https://" ++ subdomain cat ++ js ".douban.com/people/" ++ uid
  ++ js "/collect?start=" ++ ofZ start
  ++ js "&sort=time&rating=all&filter=all&mode=grid".

(** The messages given to [onLog] inside the page loop (lines 130, 145,
    149 and 154). *)
Definition msg_request (cat : Category) (page : Z) : jsstring :=
  js "⚡ [" ++ toUpperCase (category_name cat) ++ js "] P" ++ ofZ page
  ++ js " 请求中...".
Definition msg_empty (cat : Category) : jsstring :=
  js "ℹ️ " ++ category_name cat ++ js " 暂无数据或数据私密".
Definition msg_captured (n : nat) : jsstring :=
  js "✅ 捕获 " ++ ofZ (Z.of_nat n) ++ js " 条数据".
Definition msg_stop (cat : Category) (err : Error) : jsstring :=
  js "⛔ " ++ category_name cat ++ js " 停止: " ++ message err.

(** Line 139. *)
Definition is_block_page (html : jsstring) : bool :=
  includes (js "检测到有异常请求") html || includes (js "登录豆瓣") html.

Section Run.

Variables uid userCookie : jsstring.

(** Lines 130-134: the log entry of the request and the pacing delay,
    which is skipped on the first page. *)
Definition before_request (cat : Category) (page : Z) (s : session)
  : session :=
  let s := onLog (msg_request cat page) s in
  let delay := if truthy userCookie then 1500 else 3000 in
  if 1 <? page then sleep delay s else s.

(** Lines 128-152: the [try] block of one iteration of the page loop.
    The records of one page are taken to be few enough for the call
    [allReviews.push(...items)] of line 150 to accept them. *)
Definition page_try (cat : Category) (page : Z) (s : session)
  : completion * session :=
  let url := page_url cat uid (start s) in
  let s := before_request cat page s in
  let (r, w) := fetchViaLocalServer url userCookie (world s) in
  let s := mkSession w (trace s ++ [Requested url]) (allReviews s) (start s) in
  match r with
  | Thrown e => (Throw e, s)
  | Ok html =>
      if is_block_page html then (Throw blockedError, s)
      else
        match parseDoubanPage host html cat with
        | Thrown e => (Throw e, s)
        | Ok items =>
            if Z.of_nat (List.length items) =? 0 then
              (Break, if page =? 1 then onLog (msg_empty cat) s else s)
            else
              let s := onLog (msg_captured (List.length items)) s in
              (Normal,
               mkSession (world s) (trace s) (allReviews s ++ items)
                         (start s + pageSize))
        end
  end.

(** One iteration: the [try] block and the [catch] clause of lines
    153-156. *)
Definition page_iteration (cat : Category) (page : Z) (s : session)
  : control * session :=
  match page_try cat page s with
  | (Normal, s') => (Continue, s')
  | (Break, s') => (Stop, s')
  | (Throw err, s') => (Stop, onLog (msg_stop cat err) s')
  end.

(** [for (let page = 1; page <= maxPages; page++)], over the pages that
    are left. *)
Fixpoint page_loop (cat : Category) (pages : list Z) (s : session)
  : session :=
  match pages with
  | [] => s
  | page :: rest =>
      match page_iteration cat page s with
      | (Continue, s') => page_loop cat rest s'
      | (Stop, s') => s'
      end
  end.

(** The page numbers [1 .. maxPages]. *)
Definition page_numbers : list Z :=
  map Z.of_nat (seq 1 (Z.to_nat maxPages)).

(** The body of [for (const cat of categories)]. *)
Definition crawl_category (s : session) (cat : Category) : session :=
  page_loop cat page_numbers
    (mkSession (world s) (trace s) (allReviews s) 0).

(** Lines 105-114. *)
Definition announce (w : World) : session :=
  let s := mkSession w [] [] 0 in
  let s := onLog (js "🔌 模式: 本地直连 (My IP)") s in
  let s := onLog (js "📡 确保后台已运行 'node proxy.js'") s in
  if negb (truthy userCookie)
  then onLog (js "⚠️ 未检测到 Cookie，将以游客身份访问 (只能抓取公开可见内容，频率受限)") s
  else onLog (js "🍪 已加载 Cookie，将以登录身份访问") s.

(** Lines 160-162. *)
Definition finish (s : session) : result (list ReviewItem) :=
  if Z.of_nat (List.length (allReviews s)) =? 0
  then Thrown emptyError
  else Ok (allReviews s).

(** [crawlUserReviews uid userCookie onLog], started in the world [w]: the
    value the promise resolves to or the error it is rejected with, and the
    final session. *)
Definition crawlUserReviews (w : World)
  : result (list ReviewItem) * session :=
  let s := fold_left crawl_category categories (announce w) in
  (finish s, s).

End Run.
End Network.

Arguments mkSession {World}.
Arguments world {World}.
Arguments trace {World}.
Arguments allReviews {World}.
Arguments start {World}.
Arguments emit {World}.
Arguments onLog {World}.
Arguments sleep {World}.
Arguments fetchViaLocalServer {World}.
Arguments before_request {World}.
Arguments page_try {World}.
Arguments page_iteration {World}.
Arguments page_loop {World}.
Arguments crawl_category {World}.
Arguments announce {World}.
Arguments finish {World}.
Arguments crawlUserReviews {World}.

End Crawl.

(* ================================================================== *)
(** * Views of the extraction used in the statements *)

Module Views.
Import JS Dom Extract.

(** The two text fields resolved through a pair of selectors. *)
Inductive text_field := TitleField | CommentField.

Definition primary (f : text_field) : selector :=
  match f with
  | TitleField => sel_title_primary
  | CommentField => sel_comment_primary
  end.

Definition secondary (f : text_field) : selector :=
  match f with
  | TitleField => sel_title_secondary
  | CommentField => sel_comment_secondary
  end.

Definition field_value (q : bool) (f : text_field) (item : located)
  : result jsstring :=
  match f with
  | TitleField => item_title q item
  | CommentField => item_comment q item
  end.

(** The element the field is read from: the one the primary selector
    finds, and only when there is none the one the secondary selector
    finds. *)
Definition chosen_element (q : bool) (f : text_field) (item : located)
  : option located :=
  match querySelector q (primary f) item with
  | Some e => Some e
  | None => querySelector q (secondary f) item
  end.

(** The element is a form with a control named [textContent]. *)
Definition hides_text (el : option located) : bool :=
  match el with
  | Some e => shadows (element e) (js "textContent")
  | None => false
  end.

(** Resolving the field throws: the item hides [querySelector], or the
    element the field is read from hides [textContent]. *)
Definition field_throws (q : bool) (f : text_field) (item : located)
  : bool :=
  shadows (element item) (js "querySelector")
  || hides_text (chosen_element q f item).

(** The primary element of the field exists and its trimmed text is
    empty. *)
Definition primary_present_but_empty (q : bool) (f : text_field)
    (item : located) : bool :=
  match querySelector q (primary f) item with
  | Some e => negb (truthy (trim (textContent (element e))))
  | None => false
  end.

(** The text [rating<d>-t]. *)
Definition rating_pattern (d : Z) : jsstring := js "rating" ++ d :: js "-t".

(** [rating<d>-t] occurs in [cls] after [pre], and no occurrence of the
    pattern begins further left. *)
Definition leftmost_rating (cls pre : jsstring) (d : Z) : Prop :=
  is_digit d = true
  /\ (exists post, cls = pre ++ rating_pattern d ++ post)
  /\ forall pre' d' post',
       is_digit d' = true ->
       cls = pre' ++ rating_pattern d' ++ post' ->
       (List.length pre <= List.length pre')%nat.

(** The first proper descendant whose [class] attribute value begins with
    [rating]. *)
Definition begins_with_rating (it : located) : bool :=
  startsWith (js "rating") (class_of (element it)).

Definition rating_element (item : located) : option located :=
  find begins_with_rating (descendants item).

(** The class name of the rating element cannot be read as a string. *)
Definition rating_unreadable (item : located) : bool :=
  match rating_element item with
  | Some span =>
      match className (element span) with
      | Some _ => false
      | None => true
      end
  | None => false
  end.

(** The pieces of the text of the tags element, label removed. *)
Definition tag_pieces (q : bool) (item : located) : list jsstring :=
  match querySelector q sel_tags item with
  | Some el =>
      let tagText :=
        trim (removeFirst (js "标签: ") (textContent (element el))) in
      if truthy tagText then splitWhitespace tagText else []
  | None => []
  end.

(** The [try] block of the item throws, by its causes: the item hides
    [querySelector]; the class name of the rating element is not a
    string; the comment, date or tags element hides [textContent]; there
    are more tags than a call accepts arguments. *)
Definition item_fails (limit : nat) (q : bool) (item : located) : bool :=
  shadows (element item) (js "querySelector")
  || rating_unreadable item
  || hides_text (chosen_element q CommentField item)
  || hides_text (querySelector q sel_date item)
  || hides_text (querySelector q sel_tags item)
  || (limit <? List.length (tag_pieces q item))%nat.

(** What one item adds to [data] and to the console. *)
Definition item_records (limit : nat) (q : bool) (cat : Category)
    (item : located) : list ReviewItem :=
  match item_try limit q cat item with
  | Ok (Some r) => [r]
  | _ => []
  end.

Definition item_console (limit : nat) (q : bool) (cat : Category)
    (item : located) : list console_entry :=
  match item_try limit q cat item with
  | Thrown e => [ConsoleError (js "解析单条数据失败") e]
  | Ok _ => []
  end.

(** The item blocks of a document, in document order. *)
Definition item_blocks (doc : document) : list located :=
  querySelectorAll doc sel_items.

End Views.

(* ================================================================== *)
(** * Views of a crawl used in the statements *)

Module CrawlViews.
Import JS Dom Extract Crawl.

(** The addresses requested and the messages logged, in order. *)
Definition requests (t : list event) : list jsstring :=
  flat_map (fun ev => match ev with Requested u => [u] | _ => [] end) t.

Definition logs (t : list event) : list jsstring :=
  flat_map (fun ev => match ev with Logged m => [m] | _ => [] end) t.

(** A string [encodeURIComponent] accepts. *)
Definition encodable (s : jsstring) : bool :=
  match encodeURIComponent s with
  | Ok _ => true
  | Thrown _ => false
  end.

Section Views.

Variable World : Type.
Variable fetch : jsstring -> World -> fetch_outcome * World.
Variable host : platform.
Variables uid userCookie : jsstring.

Local Abbreviation session := (session World).

(** What the page at the current offset of [s] yields: the records
    extracted from it, or the failure of its fetch or of the block-page
    check. *)
Definition page_yield (cat : Category) (s : session)
  : result (list ReviewItem) :=
  match fst (fetchViaLocalServer fetch (page_url cat uid (start s))
               userCookie (world s)) with
  | Thrown e => Thrown e
  | Ok html =>
      if is_block_page html then Thrown blockedError
      else parseDoubanPage host html cat
  end.

(** The records of a yield, none when the page failed. *)
Definition records_of (y : result (list ReviewItem)) : list ReviewItem :=
  match y with
  | Ok items => items
  | Thrown _ => []
  end.

Definition has_records (y : result (list ReviewItem)) : bool :=
  match records_of y with
  | [] => false
  | _ :: _ => true
  end.

(** Every request is refused: [fetch] is rejected with a connection
    failure whatever the address and the state of the world. *)
Definition always_refused : Prop :=
  forall url w, exists e w',
    fetch url w = (Rejected e, w') /\ is_connection_failure e = true.

(** The events of one request: its log entry, the pacing delay after
    the first page, the call. *)
Definition pacing_events (page : Z) : list event :=
  if 1 <? page then [Slept (if truthy userCookie then 1500 else 3000)]
  else [].

Definition request_events (cat : Category) (page : Z) (s : session)
  : list event :=
  Logged (msg_request cat page) :: pacing_events page
  ++ [Requested (page_url cat uid (start s))].

(** The session once the page at the current offset has been requested. *)
Definition after_request (cat : Category) (page : Z) (s : session)
  : session :=
  let url := page_url cat uid (start s) in
  mkSession
    (snd (fetchViaLocalServer fetch url userCookie (world s)))
    (trace (before_request userCookie cat page s) ++ [Requested url])
    (allReviews s) (start s).

(** [continues cat pages s s']: from [s], the pages [pages] are crawled
    one after the other, each one ending with the loop going on, and the
    session is then [s']. *)
Inductive continues (cat : Category) : list Z -> session -> session -> Prop :=
| continues_nil (s : session) : continues cat [] s s
| continues_cons (page : Z) (pages : list Z) (s s1 s2 : session) :
    page_iteration fetch host uid userCookie cat page s
      = (Continue, s1) ->
    continues cat pages s1 s2 ->
    continues cat (page :: pages) s s2.

(** The iterations the page loop executes on [pages] from [s], in order:
    for each of them the session at its head and the session it leaves.
    The loop goes on after an iteration that continues and ends with the
    first one that stops. *)
Fixpoint iterations (cat : Category) (pages : list Z) (s : session)
  : list (session * session) :=
  match pages with
  | [] => []
  | page :: rest =>
      let (c, s1) := page_iteration fetch host uid userCookie cat page s in
      (s, s1) ::
      match c with
      | Continue => iterations cat rest s1
      | Stop => []
      end
  end.

End Views.

Arguments always_refused {World}.
Arguments page_yield {World}.
Arguments request_events {World}.
Arguments after_request {World}.
Arguments continues {World}.
Arguments iterations {World}.

End CrawlViews.

(* ================================================================== *)
(** * The specification's wording, for comparison with the code *)

Module Spec.
Import JS Dom Extract.

(** "First matching non-empty text" over an ordered list of locators: the
    trimmed text of the first selector whose element exists and has text,
    the empty string when there is none. *)
Fixpoint first_nonempty_text (q : bool) (sels : list selector)
    (item : located) : jsstring :=
  match sels with
  | [] => []
  | sel :: rest =>
      match querySelector q sel item with
      | Some e =>
          if truthy (trim (textContent (element e)))
          then trim (textContent (element e))
          else first_nonempty_text q rest item
      | None => first_nonempty_text q rest item
      end
  end.

(** The digit of a class token of the shape [rating<digit>-...]. *)
Definition token_rating (tok : jsstring) : option Z :=
  if startsWith (js "rating") tok then
    match skipn 6 tok with
    | d :: rest =>
        if is_digit d && startsWith (js "-") rest
        then Some (parseDigit d) else None
    | [] => None
    end
  else None.

Definition token_ratings (n : node) : list Z :=
  flat_map (fun tok => match token_rating tok with
                       | Some r => [r]
                       | None => []
                       end)
           (classList (class_of n)).

(** Rating by pattern over class tokens, wherever the token stands in its
    class list; [0] when no token has the shape. *)
Definition rating_by_pattern (item : located) : Z :=
  match flat_map (fun e => token_ratings (element e)) (descendants item) with
  | r :: _ => r
  | [] => 0
  end.

(** A message that points at the local proxy the crawler depends on. *)
Definition references_local_proxy (msg : jsstring) : bool :=
  includes (js "proxy") msg || includes (js "代理") msg.

End Spec.

(* ================================================================== *)
(** * Fixtures: small documents and networks *)

Module Fixtures.
Import JS Dom Extract Crawl.

Definition elem (name cls : string) (kids : list node) : node :=
  Element HTML (js name) (js cls) [] kids.
Definition svg (cls : string) : node :=
  Element SVG (js "svg") (js cls) [] [].
Definition txt (s : string) : node := Text (js s).

(** [<form class=cls><input name=control>kids</form>]. *)
Definition form (cls control : string) (kids : list node) : node :=
  Element HTML (js "form") (js cls) [js control] (elem "input" "" [] :: kids).

(** The document the HTML parser builds around the given body content,
    for a markup that starts with a doctype (no quirks mode). *)
Definition page (body : list node) : document :=
  mkDocument false
    (elem "html" "" [elem "head" "" []; elem "body" "" body]).

(** An item of [page body], with its ancestors. *)
Definition in_page (body : list node) (n : node) : located :=
  mkLocated [elem "body" "" body; documentElement (page body)] n.

Definition titled (t : string) : node :=
  elem "div" "title" [elem "a" "" [txt t]].

(** [<div class='item'><div class='title'><a>Alien</a></div>
     <span class='rating4-t'></span><span class='date'>2024-01-02</span>
     <p class='comment'> great </p></div>] *)
Definition good_item : node :=
  elem "div" "item"
    [titled "Alien"; elem "span" "rating4-t" [];
     elem "span" "date" [txt "2024-01-02"];
     elem "p" "comment" [txt " great "]].

(** [<div class='subject-item'><div class='title'><a></a></div>
     <div class='info'><h2><a>Dune</a></h2></div></div>]: the primary
    title element is there, but empty. *)
Definition empty_primary_item : node :=
  elem "div" "subject-item"
    [titled "";
     elem "div" "info" [elem "h2" "" [elem "a" "" [txt "Dune"]]]].

(** [<div class='item'><div class='title'><a>Alien</a></div>
     <span class='star rating4-t'></span></div>]: the rating token is the
    second of its class list. *)
Definition rating_second_item : node :=
  elem "div" "item" [titled "Alien"; elem "span" "star rating4-t" []].

(** [<div class='item'><div class='title'><a>Alien</a></div>
     <span class='rating4-t star'></span></div>]: the rating token comes
    first. *)
Definition rating_first_item : node :=
  elem "div" "item" [titled "Alien"; elem "span" "rating4-t star" []].

(** [<div class='item'><div class='title'><a>Alien</a></div>
     <span class='rating9-t'></span></div>] *)
Definition rating9_item : node :=
  elem "div" "item" [titled "Alien"; elem "span" "rating9-t" []].

(** [<div class='item'><div class='title'><a>Alien</a></div>
     <svg class='rating5-t'></svg></div>]: the first element whose class
    begins with [rating] is an SVG element. *)
Definition svg_rating_item : node :=
  elem "div" "item" [titled "Alien"; svg "rating5-t"].

(** [<div class='item'><span class='rating3-t'></span></div>]: no title. *)
Definition untitled_item : node :=
  elem "div" "item" [elem "span" "rating3-t" []].

(** [<div class='item'><div class='title'><a>Alien</a></div>
     <span class='ratings rating3-t'></span></div>]: the class attribute
    begins with [rating], the pattern occurs further right. *)
Definition rating_later_item : node :=
  elem "div" "item" [titled "Alien"; elem "span" "ratings rating3-t" []].

(** [<div class='item'><div class='title'><a>Alien</a></div>
     <form class='comment'><input name='textContent'>fine</form></div>]:
    the comment element is a form whose [textContent] is its control. *)
Definition form_comment_item : node :=
  elem "div" "item"
    [titled "Alien"; form "comment" "textContent" [txt "fine"]].

(** [<div class='item'><div class='title'><a>Alien</a></div>
     <form class='rating4-t'><input name='className'></form></div>]: the
    rating element is a form whose [className] is its control. *)
Definition form_rating_item : node :=
  elem "div" "item" [titled "Alien"; form "rating4-t" "className" []].

(** [<form class='item'><input name='querySelector'>
     <div class='title'><a>Alien</a></div></form>]: the item is a form
    whose [querySelector] is its control. *)
Definition form_item : node :=
  form "item" "querySelector" [titled "Alien"].

(** [<div class='item'><div class='title'><a>Alien</a></div>
     <span class='tags'>a b c</span></div>]: three tags. *)
Definition tagged_item : node :=
  elem "div" "item" [titled "Alien"; elem "span" "tags" [txt "a b c"]].

(** The markup of a page made of [good_item]. *)
Definition markup_good : jsstring :=
  js "<!DOCTYPE html><div class='item'><div class='title'><a>Alien</a></div><span class='rating4-t'></span><span class='date'>2024-01-02</span><p class='comment'> great </p></div>".

(** The markup of a page made of [rating9_item]. *)
Definition markup_rating9 : jsstring :=
  js "<!DOCTYPE html><div class='item'><div class='title'><a>Alien</a></div><span class='rating9-t'></span></div>".

(** The markup of a page made of [svg_rating_item]. *)
Definition markup_svg_rating : jsstring :=
  js "<!DOCTYPE html><div class='item'><div class='title'><a>Alien</a></div><svg class='rating5-t'></svg></div>".

(** The markup of a page made of [good_item], [svg_rating_item] and
    [rating9_item]. *)
Definition markup_mixed : jsstring :=
  js "<!DOCTYPE html><div class='item'><div class='title'><a>Alien</a></div><span class='rating4-t'></span><span class='date'>2024-01-02</span><p class='comment'> great </p></div><div class='item'><div class='title'><a>Alien</a></div><svg class='rating5-t'></svg></div><div class='item'><div class='title'><a>Alien</a></div><span class='rating9-t'></span></div>".

(** The markup of a page made of [form_comment_item]. *)
Definition markup_form_comment : jsstring :=
  js "<!DOCTYPE html><div class='item'><div class='title'><a>Alien</a></div><form class='comment'><input name='textContent'>fine</form></div>".

(** The markup of a page made of [form_rating_item]. *)
Definition markup_form_rating : jsstring :=
  js "<!DOCTYPE html><div class='item'><div class='title'><a>Alien</a></div><form class='rating4-t'><input name='className'></form></div>".

(** The markup of a page made of [form_item]. *)
Definition markup_form_item : jsstring :=
  js "<!DOCTYPE html><form class='item'><input name='querySelector'><div class='title'><a>Alien</a></div></form>".

(** The markup of a page made of [tagged_item]. *)
Definition markup_tagged : jsstring :=
  js "<!DOCTYPE html><div class='item'><div class='title'><a>Alien</a></div><span class='tags'>a b c</span></div>".

(** The markup of a page without item. *)
Definition markup_empty : jsstring := js "<!DOCTYPE html><p>nothing here</p>".

(** A parser defined on the fixture markups: each is mapped to the
    document the HTML parser builds from it, anything else to a page with
    no item. *)
Definition fixture_parser (html : jsstring) : document :=
  if JS.eqb html markup_good then page [good_item]
  else if JS.eqb html markup_rating9 then page [rating9_item]
  else if JS.eqb html markup_svg_rating then page [svg_rating_item]
  else if JS.eqb html markup_mixed
  then page [good_item; svg_rating_item; rating9_item]
  else if JS.eqb html markup_form_comment then page [form_comment_item]
  else if JS.eqb html markup_form_rating then page [form_rating_item]
  else if JS.eqb html markup_form_item then page [form_item]
  else if JS.eqb html markup_tagged then page [tagged_item]
  else page [elem "p" "" [txt "nothing here"]].

(** A browser with this parser whose calls accept 65535 arguments, and
    one whose calls accept two. *)
Definition fixture_host : platform :=
  mkPlatform fixture_parser (Z.to_nat 65535).
Definition narrow_host : platform := mkPlatform fixture_parser 2.

(** A network that refuses every connection. *)
Definition refusing (url : jsstring) (w : unit) : fetch_outcome * unit :=
  (Rejected (mkError (js "Failed to fetch")), w).

(** A scripted network: the world is the list of the outcomes still to be
    served, one per request; once it is used up connections are refused. *)
Definition scripted (url : jsstring) (w : list fetch_outcome)
  : fetch_outcome * list fetch_outcome :=
  match w with
  | o :: rest => (o, rest)
  | [] => (Rejected (mkError (js "Failed to fetch")), [])
  end.

Definition success (body : jsstring) : fetch_outcome :=
  Resolved (mkResponse true 200 (Ok body)).

(** What the companion proxy answers when the site redirects. *)
Definition redirected : fetch_outcome :=
  Resolved (mkResponse false 403
              (Ok (js "Douban Redirected: 请尝试填写 Cookie 以访问此数据。"))).

End Fixtures.

(* ================================================================== *)
(** * The companion proxy: the [/fetch] route of [proxy.js] *)

Module Proxy.
Import JS Crawl.

(** What the route reads of the request: the [url] and [cookie] query
    parameters, each a string or absent. *)
Record request := mkRequest {
  query_url : option jsstring;
  query_cookie : option jsstring
}.

(** The GET that [axios] sends to the site: address and headers. *)
Record upstream_request := mkUpstreamRequest {
  get_url : jsstring;
  user_agent : jsstring;
  cookie_header : jsstring;
  referer : jsstring
}.

(** What the route answers, as the caller of [fetch] receives it: a
    status and the text of the body. *)
Record reply := mkReply { reply_status : Z; reply_body : jsstring }.

(** Lines 41-43. *)
Definition validateStatus (status : Z) : bool :=
  (200 <=? status) && (status <? 400).

(** [status === 301 || status === 302]. *)
Definition is_redirect (status : Z) : bool :=
  (status =? 301) || (status =? 302).

Definition userAgent : jsstring :=
  js "Mozilla/5.0 (Windows NT 10.0; Win64; x64) AppleWebKit/537.36 (KHTML, like Gecko) Chrome/120.0.0.0 Safari/537.36".

(** [res.status(status).send(text)] with a string literal of the source:
    the text is the body. *)
Definition send_text (status : Z) (text : jsstring) : reply :=
  mkReply status text.

Definition redirectedReply : reply :=
  send_text 403
    (js "Douban Redirected: 豆瓣要求重定向（通常因为未登录或无权限），请尝试填写 Cookie。").

Definition redirectedErrorReply : reply :=
  send_text 403 (js "Douban Redirected: 请尝试填写 Cookie 以访问此数据。").

(** The [Response] the browser makes of a reply: [ok] for the statuses
    200 to 299, the body as text. *)
Definition browser_response (r : reply) : Response :=
  mkResponse ((200 <=? reply_status r) && (reply_status r <=? 299))
    (reply_status r) (Ok (reply_body r)).

Section Route.

(** [response.data] as [axios] hands it over.  It is not always the text
    of the body: [axios] parses a body that is JSON and hands over the
    parsed value.  The route does not look into it; it only tests its
    truth value (line 64) and passes it to [res.send]. *)
Variable Data : Type.

(** [!data]. *)
Variable falsy : Data -> bool.

(** [res.status(status).send(data)]: what the caller receives when such
    a value is sent ([express] writes a string as it is and serialises
    other values). *)
Variable send : Z -> Data -> reply.

(** What comes back from the site: a response with its status and its
    data, or no response at all (the connection failed). *)
Inductive upstream_outcome :=
| Answered (status : Z) (data : Data)
| Unreachable (message : jsstring).

(** The promise of [axios.get] with [maxRedirects: 0] and this
    [validateStatus]: a redirect is not followed; the response resolves
    the promise when [validateStatus] accepts its status and otherwise
    comes with the error that rejects it; a failed connection rejects
    without response. *)
Inductive axios_outcome :=
| AxiosResolved (status : Z) (data : Data)
| AxiosRejected (response : option (Z * Data)) (message : jsstring).

Definition axios_get (o : upstream_outcome) : axios_outcome :=
  match o with
  | Answered status data =>
      if validateStatus status then AxiosResolved status data
      else AxiosRejected (Some (status, data))
             (js "Request failed with status code " ++ ofZ status)
  | Unreachable msg => AxiosRejected None msg
  end.

(** [new URL(url).hostname], [None] when the constructor throws. *)
Variable hostname : jsstring -> option jsstring.

(** The site. *)
Variable upstream : upstream_request -> upstream_outcome.

(** Lines 19-35: the request sent to the site for the parameters [url] and
    [cookie]. *)
Definition upstream_request_of (url : jsstring) (cookie : option jsstring)
  : upstream_request :=
  let targetHost :=
    match hostname url with
    | Some h => h
    | None => js "www.douban.com"
    end in
  mkUpstreamRequest url userAgent
    (match cookie with Some c => c | None => [] end)
    (js "https://" ++ targetHost ++ js "/").

(** Lines 11-69: the handler of [GET /fetch]. *)
Definition fetch_route (req : request) : reply :=
  match query_url req with
  | None => send_text 400 (js "Missing URL")
  | Some url =>
      if negb (truthy url) then send_text 400 (js "Missing URL")
      else
        match axios_get (upstream (upstream_request_of url (query_cookie req)))
        with
        | AxiosResolved status data =>
            if is_redirect status then redirectedReply
            else send 200 data
        | AxiosRejected (Some (status, data)) _ =>
            if is_redirect status then redirectedErrorReply
            else if falsy data then send_text status (js "Proxy Error")
            else send status data
        | AxiosRejected None _ => send_text 500 (js "Network Error")
        end
  end.

Section Served.

(** The query parser of the server: the request it reads from the
    resource of a GET. *)
Variable parse_query : jsstring -> request.
Variable World : Type.

(** The network the crawler sees when the proxy is running: every
    [fetch] is answered by the route. *)
Definition served (resource : jsstring) (w : World)
  : fetch_outcome * World :=
  (Resolved (browser_response (fetch_route (parse_query resource))), w).

End Served.
End Route.

Arguments Answered {Data}.
Arguments Unreachable {Data}.
Arguments AxiosResolved {Data}.
Arguments AxiosRejected {Data}.

End Proxy.

(* ================================================================== *)
(** * Further views used in the statements *)

Module MoreViews.
Import JS Dom Extract Crawl CrawlViews.

(** A string whose code units are 16-bit values. *)
Definition valid_string (s : jsstring) : Prop :=
  Forall (fun c => 0 <= c < 65536) s.

(** The characters of an encoded URI component: unreserved characters and
    the percent sign. *)
Definition uri_safe (c : Z) : bool := uri_unreserved c || (c =? 37).

(** The resource [fetchViaLocalServer] asks the proxy for. *)
Definition proxy_resource (encodedUrl encodedCookie : jsstring) : jsstring :=
  js "/fetch" ++ js "?url=" ++ encodedUrl ++ js "&cookie=" ++ encodedCookie.

(** A network that writes down the resources it is asked for: the world
    is the list of them. *)
Definition recording (answer : jsstring -> fetch_outcome)
    (resource : jsstring) (w : list jsstring)
  : fetch_outcome * list jsstring :=
  (answer resource, w ++ [resource]).

(** The text of the body of a response that is not ok:
    [await response.text().catch(() => '')]. *)
Definition error_text (r : Response) : jsstring :=
  match text r with
  | Ok t => t
  | Thrown _ => []
  end.

(** The sleeps and the requests of a trace, in order. *)
Definition network_events (t : list event) : list event :=
  filter (fun ev => match ev with Logged _ => false | _ => true end) t.

(** The pacing delay of a crawl. *)
Definition pacing_delay (userCookie : jsstring) : Z :=
  if truthy userCookie then 1500 else 3000.

(** The address of the page of rank [k] (from 0) of the movie category. *)
Definition nth_address (uid : jsstring) (k : nat) : jsstring :=
  page_url Movie uid (pageSize * Z.of_nat k).

(** A string without white space at either end. *)
Definition no_outer_space (s : jsstring) : Prop :=
  match s with
  | [] => True
  | c :: _ => is_space c = false /\ is_space (last s 0) = false
  end.

(** A record with another category. *)
Definition with_category (cat : Category) (r : ReviewItem) : ReviewItem :=
  mkReviewItem (title r) (rating r) (comment r) (date r) cat (tags r).

End MoreViews.

(* ================================================================== *)
(** * The model on small inputs *)

Section SmallInputs.
Import JS Dom Extract Crawl Fixtures.

Example trim_spaces : trim ([32; 9] ++ js "a b" ++ [10; 32]) = js "a b".
Proof. reflexivity. Qed.

Example trim_ideographic_space : trim [12288; 97; 160] = js "a".
Proof. reflexivity. Qed.

Example includes_marker :
  includes (js "登录豆瓣") (js "<title>登录豆瓣</title>") = true.
Proof. reflexivity. Qed.

Example split_runs : splitWhitespace (js "a b  c") = [js "a"; js "b"; js "c"].
Proof. reflexivity. Qed.

Example encode_address :
  encodeURIComponent (js "https://movie.douban.com/people/u1/collect?start=0")
  = Ok (js "https%3A%2F%2Fmovie.douban.com%2Fpeople%2Fu1%2Fcollect%3Fstart%3D0").
Proof. reflexivity. Qed.

Example encode_lone_surrogate : encodeURIComponent [55357] = Thrown URIError.
Proof. reflexivity. Qed.

Example class_list :
  classList (js " star  rating4-t ") = [js "star"; js "rating4-t"].
Proof. reflexivity. Qed.

(** The tag block [标签: a b  c] gives the tags [a], [b], [c]; a block of
    white space gives none. *)
Example tags_of_block :
  let item := elem "div" "item" [elem "span" "tags" [txt "标签: a b  c"]] in
  item_tags 3 false (in_page [item] item) = Ok [js "a"; js "b"; js "c"].
Proof. reflexivity. Qed.

Example tags_of_blank_block :
  let item := elem "div" "item" [elem "span" "tags" [txt "   "]] in
  item_tags 3 false (in_page [item] item) = Ok [].
Proof. reflexivity. Qed.

(** Three tags where a call accepts two arguments: [tags.push(...)]
    throws and the item, which has a title, is skipped. *)
Example tags_beyond_the_arguments_of_a_call :
  item_tags 2 false (in_page [tagged_item] tagged_item)
  = Thrown RangeError_arguments
  /\ parseDoubanPage narrow_host markup_tagged Movie = Ok []
  /\ parseDoubanPage fixture_host markup_tagged Movie
     = Ok [mkReviewItem (js "Alien") 0 [] [] Movie [js "a"; js "b"; js "c"]].
Proof. vm_compute. repeat split. Qed.

(** A comment element that is a form with a control named [textContent]:
    reading the comment throws, and the item is skipped and logged. *)
Example form_as_comment_element :
  item_comment false (in_page [form_comment_item] form_comment_item)
  = Thrown (TypeError_not_a_function "commentEl?.textContent?.trim")
  /\ parseDoubanPage_full fixture_host markup_form_comment Movie
     = Ok (mkParseState []
             [ConsoleError (js "解析单条数据失败")
                (TypeError_not_a_function "commentEl?.textContent?.trim")]).
Proof. vm_compute. repeat split. Qed.

(** An item that is a form with a control named [querySelector]: the
    first lookup throws. *)
Example form_as_item :
  item_title false (in_page [form_item] form_item)
  = Thrown (TypeError_not_a_function "item.querySelector")
  /\ parseDoubanPage fixture_host markup_form_item Movie = Ok [].
Proof. vm_compute. repeat split. Qed.

(** A rating element that is a form with a control named [className]. *)
Example form_as_rating_element :
  item_rating false (in_page [form_rating_item] form_rating_item)
  = Thrown TypeError_match
  /\ parseDoubanPage fixture_host markup_form_rating Movie = Ok [].
Proof. vm_compute. repeat split. Qed.

(** A grid item and a list item on one page, and an item without title in
    between: two records, in document order, and nothing on the console. *)
Example both_shapes :
  parseDocument 10
    (page [good_item; untitled_item; empty_primary_item;
           elem "div" "subject-item"
             [elem "div" "info"
                [elem "h2" "" [elem "a" "" [txt " Dune "]]];
              elem "div" "short-note" [txt "long"]]]) Book
  = Ok (mkParseState
          [mkReviewItem (js "Alien") 4 (js "great") (js "2024-01-02") Book [];
           mkReviewItem (js "Dune") 0 (js "long") [] Book []]
          []).
Proof. reflexivity. Qed.

(** Two pages: the first with one record, the second without any.  The
    record is returned and page 3 is not requested. *)
Example two_pages :
  let run := crawlUserReviews scripted fixture_host (js "u1") (js "c=1")
               [success markup_good; success markup_empty] in
  fst run = Ok [mkReviewItem (js "Alien") 4 (js "great") (js "2024-01-02")
                  Movie []]
  /\ CrawlViews.requests (trace (snd run))
     = [page_url Movie (js "u1") 0; page_url Movie (js "u1") 15]
  /\ world (snd run) = [].
Proof. vm_compute. repeat split. Qed.

End SmallInputs.

(* ================================================================== *)
(** * Facts about strings *)

Import JS Dom Extract Views.

Lemma startsWith_app (p s : jsstring) : startsWith p (p ++ s) = true.
Proof.
  induction p as [|c p IH]; cbn [startsWith app]; [reflexivity|].
  now rewrite Z.eqb_refl, IH.
Qed.

Lemma startsWith_prefix (p s : jsstring) :
  startsWith p s = true -> exists t, s = p ++ t.
Proof.
  revert s. induction p as [|c p IH]; intros s; cbn [startsWith app].
  - intros _. now exists s.
  - destruct s as [|x s]; [discriminate|].
    intros H. apply andb_true_iff in H as [Hc Hp].
    apply Z.eqb_eq in Hc as ->. destruct (IH s Hp) as [t ->]. now exists t.
Qed.

Lemma eqb_eq (a b : jsstring) : JS.eqb a b = true -> a = b.
Proof.
  revert b. induction a as [|x a IH]; intros [|y b]; cbn [JS.eqb];
    try discriminate; [reflexivity|].
  intros H. apply andb_true_iff in H as [Hx Ha].
  apply Z.eqb_eq in Hx as ->. now rewrite (IH b Ha).
Qed.

(** ** The rating pattern *)

Lemma rating_at_leading (d : Z) (rest : jsstring) :
  is_digit d = true -> rating_at (rating_pattern d ++ rest) = Some d.
Proof.
  intros Hd. unfold rating_at, rating_pattern.
  change ((js "rating" ++ d :: js "-t") ++ rest)
    with (js "rating" ++ d :: js "-t" ++ rest).
  rewrite startsWith_app.
  change (skipn 6 (js "rating" ++ d :: js "-t" ++ rest))
    with (d :: js "-t" ++ rest).
  cbv iota. now rewrite Hd, startsWith_app.
Qed.

Lemma rating_at_Some (s : jsstring) (d : Z) :
  rating_at s = Some d ->
  is_digit d = true /\ exists post, s = rating_pattern d ++ post.
Proof.
  unfold rating_at.
  destruct (startsWith (js "rating") s) eqn:Hs; [|discriminate].
  apply startsWith_prefix in Hs as [t ->].
  change (skipn 6 (js "rating" ++ t)) with t.
  destruct t as [|x rest]; [discriminate|].
  destruct (is_digit x) eqn:Hx; cbn [andb]; [|discriminate].
  destruct (startsWith (js "-t") rest) eqn:Hr; [|discriminate].
  intros H; injection H as <-.
  apply startsWith_prefix in Hr as [post ->].
  split; [exact Hx|]. now exists post.
Qed.

Lemma match_rating_leading (d : Z) (rest : jsstring) :
  is_digit d = true -> match_rating (rating_pattern d ++ rest) = Some d.
Proof.
  intros Hd.
  assert (E : forall s, rating_at s = Some d -> match_rating s = Some d).
  { intros s Hs. destruct s; cbn [match_rating]; now rewrite Hs. }
  apply E, rating_at_leading, Hd.
Qed.

(** A match of the pattern is an occurrence of [rating<digit>-t]. *)
Lemma match_rating_Some (s : jsstring) :
  forall d,
    match_rating s = Some d ->
    is_digit d = true /\ exists pre post, s = pre ++ rating_pattern d ++ post.
Proof.
  induction s as [|c s IH]; intros d; cbn [match_rating].
  - destruct (rating_at []) eqn:E; [|discriminate].
    intros H; injection H as ->.
    apply rating_at_Some in E as [Hd [post ->]].
    split; [exact Hd|]. now exists [], post.
  - destruct (rating_at (c :: s)) eqn:E.
    + intros H; injection H as ->.
      apply rating_at_Some in E as [Hd [post ->]].
      split; [exact Hd|]. now exists [], post.
    + intros H. apply IH in H as [Hd (pre & post & ->)].
      split; [exact Hd|]. now exists (c :: pre), post.
Qed.

(** The match is the leftmost occurrence: the pattern is tried at every
    position from the left, so what stands before the occurrence does not
    matter as long as no occurrence begins there. *)
Lemma match_rating_leftmost (pre : jsstring) :
  forall cls d,
    leftmost_rating cls pre d -> match_rating cls = Some d.
Proof.
  induction pre as [|c pre IH]; intros cls d (Hd & [post ->] & Hleft).
  - now apply match_rating_leading.
  - cbn [app match_rating].
    destruct (rating_at (c :: pre ++ rating_pattern d ++ post)) as [d'|] eqn:E.
    + apply rating_at_Some in E as [Hd' [post' E]].
      specialize (Hleft [] d' post' Hd' E). cbn [List.length] in Hleft. lia.
    + apply IH. split; [exact Hd|]. split; [now exists post|].
      intros pre' d' post' Hd' E'.
      specialize (Hleft (c :: pre') d' post' Hd').
      cbn [app List.length] in Hleft. rewrite E' in Hleft.
      specialize (Hleft eq_refl). lia.
Qed.

(** Where the pattern occurs, it has a leftmost occurrence, and it is the
    match. *)
Lemma match_rating_leftmost_inv (s : jsstring) :
  forall d,
    match_rating s = Some d -> exists pre, leftmost_rating s pre d.
Proof.
  induction s as [|c s IH]; intros d; cbn [match_rating].
  - destruct (rating_at []) eqn:E; [|discriminate].
    intros H; injection H as ->.
    apply rating_at_Some in E as [Hd [post E]].
    exists []. split; [exact Hd|]. split; [now exists post|].
    intros. cbn [List.length]. lia.
  - destruct (rating_at (c :: s)) eqn:E.
    + intros H; injection H as ->.
      apply rating_at_Some in E as [Hd [post E]].
      exists []. split; [exact Hd|]. split; [now exists post|].
      intros. cbn [List.length]. lia.
    + intros H. destruct (IH d H) as (pre & Hd & [post ->] & Hleft).
      exists (c :: pre). split; [exact Hd|]. split; [now exists post|].
      intros [|c' pre'] d' post' Hd' E'.
      * cbn [app] in E'.
        rewrite E', (rating_at_leading d' post' Hd') in E. discriminate.
      * cbn [app] in E'. injection E' as _ E'.
        specialize (Hleft pre' d' post' Hd' E'). cbn [List.length]. lia.
Qed.

(* ================================================================== *)
(** * Properties of the extraction *)

Section ExtractionFacts.

Variable limit : nat.
Variable q : bool.

(** The [forEach] of [parseDoubanPage] never stops early: every item adds
    its records and its console entries, in order. *)
Lemma forEach_item_callback (cat : Category) (items : list located) :
  forall st,
    forEach (item_callback limit q cat) items st =
    Ok (mkParseState (data st ++ flat_map (item_records limit q cat) items)
          (console st ++ flat_map (item_console limit q cat) items)).
Proof.
  induction items as [|item items IH]; intros [d c]; cbn [forEach flat_map].
  - now rewrite !app_nil_r.
  - unfold item_callback, item_records, item_console.
    destruct (item_try limit q cat item) as [[r|]|e]; cbn [data console];
      rewrite IH; cbn [data console app];
      rewrite <- ?app_assoc; reflexivity.
Qed.

(** The selector [[class^="rating"]] holds of the elements whose class
    attribute value begins with [rating], whatever their ancestors. *)
Lemma matches_sel_rating (it : located) :
  matches q sel_rating it = begins_with_rating it.
Proof.
  unfold matches, sel_rating, matches_complex, begins_with_rating.
  cbn [existsb rev app matches_ancestors].
  destruct it as [anc [ns name cls ctl kids|d]];
    cbn [element matches_simple class_of].
  - now rewrite !andb_true_r, orb_false_r.
  - reflexivity.
Qed.

Lemma querySelector_rating (item : located) :
  querySelector q sel_rating item = rating_element item.
Proof.
  unfold querySelector, rating_element.
  induction (descendants item) as [|it l IH]; cbn [find]; [reflexivity|].
  now rewrite matches_sel_rating, IH.
Qed.

(** ** Lookups on an item *)

Lemma lookup_visible (sel : selector) (item : located) :
  shadows (element item) (js "querySelector") = false ->
  item_querySelector q sel item = Ok (querySelector q sel item).
Proof. intros H. unfold item_querySelector. now rewrite H. Qed.

Lemma lookup_hidden (sel : selector) (item : located) :
  shadows (element item) (js "querySelector") = true ->
  item_querySelector q sel item
  = Thrown (TypeError_not_a_function "item.querySelector").
Proof. intros H. unfold item_querySelector. now rewrite H. Qed.

Lemma trimmedText_cases (callee : string) (el : option located) :
  trimmedText callee el =
  if hides_text el then Thrown (TypeError_not_a_function callee)
  else Ok match el with
          | Some e => trim (textContent (element e))
          | None => []
          end.
Proof.
  destruct el as [e|]; cbn [trimmedText hides_text]; [|reflexivity].
  unfold textContentProperty.
  now destruct (shadows (element e) (js "textContent")).
Qed.

(** The two lookups of a field, [a || b]. *)
Lemma chosen_lookup (f : text_field) (item : located) :
  shadows (element item) (js "querySelector") = false ->
  orElse (item_querySelector q (primary f) item)
         (item_querySelector q (secondary f) item)
  = Ok (chosen_element q f item).
Proof.
  intros H. rewrite !lookup_visible by exact H.
  unfold orElse, chosen_element.
  now destruct (querySelector q (primary f) item).
Qed.

(** An element found by a selector that ends with the type selector [a]
    is not a form. *)
Lemma anchor_is_no_form (chain : list simple) (item e : located)
    (property : jsstring) :
  querySelector q [chain ++ [Tag (js "a")]] item = Some e ->
  shadows (element e) property = false.
Proof.
  unfold querySelector. intros H. apply find_some in H as [_ H].
  unfold matches in H. cbn [existsb] in H. rewrite orb_false_r in H.
  unfold matches_complex in H. rewrite rev_app_distr in H.
  cbn [rev app] in H. apply andb_true_iff in H as [H _].
  destruct (element e) as [ns name cls ctl kids|d];
    cbn [matches_simple] in H; [|discriminate].
  apply eqb_eq in H. subst name. now destruct ns.
Qed.

Lemma title_element_is_no_form (item : located) :
  hides_text (chosen_element q TitleField item) = false.
Proof.
  unfold chosen_element, hides_text. cbn [primary secondary].
  destruct (querySelector q sel_title_primary item) as [e|] eqn:E1.
  - exact (anchor_is_no_form [Class (js "title")] item e _ E1).
  - destruct (querySelector q sel_title_secondary item) as [e|] eqn:E2;
      [|reflexivity].
    exact (anchor_is_no_form [Class (js "info"); Tag (js "h2")] item e _ E2).
Qed.

(** ** The fields of a visible item, one by one *)

Section Visible.

Variable item : located.
Hypothesis visible : shadows (element item) (js "querySelector") = false.

Lemma item_title_visible :
  item_title q item =
  Ok match chosen_element q TitleField item with
     | Some e => trim (textContent (element e))
     | None => []
     end.
Proof.
  unfold item_title.
  pose proof (chosen_lookup TitleField item visible) as E.
  cbn [primary secondary] in E. rewrite E. cbn [bind].
  now rewrite trimmedText_cases, title_element_is_no_form.
Qed.

Lemma item_comment_visible :
  item_comment q item =
  trimmedText "commentEl?.textContent?.trim"
    (chosen_element q CommentField item).
Proof.
  unfold item_comment.
  pose proof (chosen_lookup CommentField item visible) as E.
  cbn [primary secondary] in E. now rewrite E.
Qed.

Lemma item_date_visible :
  item_date q item =
  trimmedText "dateEl?.textContent?.trim" (querySelector q sel_date item).
Proof.
  unfold item_date. now rewrite lookup_visible by exact visible.
Qed.

Lemma item_rating_visible :
  item_rating q item =
  match rating_element item with
  | None => Ok 0
  | Some span =>
      match className (element span) with
      | None => Thrown TypeError_match
      | Some cls =>
          Ok match match_rating cls with
             | Some d => parseDigit d
             | None => 0
             end
      end
  end.
Proof.
  unfold item_rating.
  rewrite lookup_visible by exact visible. cbn [bind].
  rewrite querySelector_rating.
  destruct (rating_element item) as [span|]; [|reflexivity].
  destruct (className (element span)) as [cls|]; [|reflexivity].
  now destruct (match_rating cls).
Qed.

Lemma item_tags_visible :
  item_tags limit q item =
  if hides_text (querySelector q sel_tags item)
  then Thrown (TypeError_not_a_function "tagEl.textContent.replace")
  else if (limit <? List.length (tag_pieces q item))%nat
       then Thrown RangeError_arguments
       else Ok (tag_pieces q item).
Proof.
  unfold item_tags, tag_pieces, hides_text.
  rewrite lookup_visible by exact visible. cbn [bind].
  destruct (querySelector q sel_tags item) as [el|]; [|reflexivity].
  unfold textContentProperty.
  destruct (shadows (element el) (js "textContent")); [reflexivity|].
  destruct (textContent (element el)) as [|c text] eqn:E.
  - reflexivity.
  - cbn [truthy].
    destruct (truthy (trim (removeFirst (js "标签: ") (c :: text))));
      [|reflexivity].
    reflexivity.
Qed.

End Visible.

(** ** The [try] block of an item *)

(** When the block completes, every field was resolved. *)
Lemma item_try_Ok (cat : Category) (item : located)
    (o : option ReviewItem) :
  item_try limit q cat item = Ok o ->
  exists t r c d tg,
    item_title q item = Ok t /\ item_rating q item = Ok r
    /\ item_comment q item = Ok c /\ item_date q item = Ok d
    /\ item_tags limit q item = Ok tg
    /\ o = if truthy t
           then Some (mkReviewItem t r c d cat tg) else None.
Proof.
  unfold item_try.
  destruct (item_title q item) as [t|]; cbn [bind]; [|discriminate].
  destruct (item_rating q item) as [r|]; cbn [bind]; [|discriminate].
  destruct (item_comment q item) as [c|]; cbn [bind]; [|discriminate].
  destruct (item_date q item) as [d|]; cbn [bind]; [|discriminate].
  destruct (item_tags limit q item) as [tg|]; cbn [bind]; [|discriminate].
  intros H. exists t, r, c, d, tg. repeat (split; [reflexivity|]).
  destruct (truthy t); now injection H as <-.
Qed.

(** The block throws exactly for the causes listed in [item_fails]. *)
Lemma item_try_throws (cat : Category) (item : located) :
  item_fails limit q item =
  match item_try limit q cat item with
  | Thrown _ => true
  | Ok _ => false
  end.
Proof.
  unfold item_fails, item_try.
  destruct (shadows (element item) (js "querySelector")) eqn:V.
  - unfold item_title. rewrite !lookup_hidden by exact V. reflexivity.
  - cbn [orb].
    rewrite (item_title_visible item V); cbn [bind].
    rewrite (item_rating_visible item V), (item_comment_visible item V),
      (item_date_visible item V), (item_tags_visible item V).
    unfold rating_unreadable.
    destruct (rating_element item) as [span|].
    + destruct (className (element span)) as [cls|]; cbn [bind orb];
        [|reflexivity].
      rewrite !trimmedText_cases.
      destruct (hides_text (chosen_element q CommentField item));
        cbn [bind orb]; [reflexivity|].
      destruct (hides_text (querySelector q sel_date item));
        cbn [bind orb]; [reflexivity|].
      destruct (hides_text (querySelector q sel_tags item));
        cbn [bind orb]; [reflexivity|].
      destruct (limit <? List.length (tag_pieces q item))%nat;
        cbn [bind]; [reflexivity|].
      now destruct (truthy _).
    + cbn [bind orb]. rewrite !trimmedText_cases.
      destruct (hides_text (chosen_element q CommentField item));
        cbn [bind orb]; [reflexivity|].
      destruct (hides_text (querySelector q sel_date item));
        cbn [bind orb]; [reflexivity|].
      destruct (hides_text (querySelector q sel_tags item));
        cbn [bind orb]; [reflexivity|].
      destruct (limit <? List.length (tag_pieces q item))%nat;
        cbn [bind]; [reflexivity|].
      now destruct (truthy _).
Qed.

Lemma parseDigit_range (d : Z) :
  is_digit d = true -> 0 <= parseDigit d <= 9.
Proof. unfold is_digit, parseDigit. lia. Qed.

Lemma item_rating_range (item : located) (r : Z) :
  item_rating q item = Ok r -> 0 <= r <= 9.
Proof.
  unfold item_rating.
  destruct (item_querySelector q sel_rating item) as [[span|]|];
    cbn [bind]; [| |discriminate].
  - destruct (className (element span)) as [cls|]; [|discriminate].
    destruct (match_rating cls) as [d|] eqn:E; intros H; injection H as <-.
    + apply parseDigit_range. now apply match_rating_Some in E.
    + lia.
  - intros H; injection H as <-. lia.
Qed.

(** The record of an item, when it has one. *)
Lemma item_records_cases (cat : Category) (item : located) :
  (exists t r c d tg,
     item_title q item = Ok t /\ t <> [] /\ item_rating q item = Ok r
     /\ item_comment q item = Ok c /\ item_date q item = Ok d
     /\ item_tags limit q item = Ok tg
     /\ item_fails limit q item = false
     /\ item_records limit q cat item = [mkReviewItem t r c d cat tg])
  \/ ((item_title q item = Ok [] \/ item_fails limit q item = true)
      /\ item_records limit q cat item = []).
Proof.
  unfold item_records. rewrite (item_try_throws cat item).
  destruct (item_try limit q cat item) as [o|e] eqn:E.
  - apply item_try_Ok in E as (t & r & c & d & tg & Ht & Hr & Hc & Hd & Hg & ->).
    destruct t as [|x t]; cbn [truthy].
    + right. split; [now left | reflexivity].
    + left. exists (x :: t), r, c, d, tg.
      repeat (split; [first [assumption | discriminate | reflexivity]|]).
      reflexivity.
  - right. split; [now right | reflexivity].
Qed.

Lemma item_records_rating (cat : Category) (item : located) :
  Forall (fun r => 0 <= rating r <= 9) (item_records limit q cat item).
Proof.
  destruct (item_records_cases cat item)
    as [(t & r & c & d & tg & _ & _ & Hr & _ & _ & _ & _ & ->) | (_ & ->)];
    constructor; [|constructor].
  cbn [rating]. eapply item_rating_range; eassumption.
Qed.

Lemma item_records_in_category (cat : Category) (item : located) :
  Forall (fun r => category r = cat) (item_records limit q cat item).
Proof.
  destruct (item_records_cases cat item)
    as [(t & r & c & d & tg & _ & _ & _ & _ & _ & _ & _ & ->) | (_ & ->)];
    repeat constructor.
Qed.

End ExtractionFacts.

(** What [parseDocument] returns, item by item. *)
Lemma parseDocument_eq (limit : nat) (doc : document) (cat : Category) :
  parseDocument limit doc cat =
  Ok (mkParseState
        (flat_map (item_records limit (quirks doc) cat) (item_blocks doc))
        (title_check doc
         ++ flat_map (item_console limit (quirks doc) cat) (item_blocks doc))).
Proof.
  unfold parseDocument. now rewrite forEach_item_callback.
Qed.

Lemma parseDoubanPage_eq (host : platform) (html : jsstring)
    (cat : Category) :
  parseDoubanPage host html cat =
  Ok (flat_map (item_records (max_arguments host)
                  (quirks (parseFromString host html)) cat)
        (item_blocks (parseFromString host html))).
Proof.
  unfold parseDoubanPage, parseDoubanPage_full.
  now rewrite parseDocument_eq.
Qed.

Lemma Forall_flat_map {A B : Type} (P : B -> Prop) (f : A -> list B)
    (l : list A) :
  (forall x, Forall P (f x)) -> Forall P (flat_map f l).
Proof.
  intros H. induction l as [|x l IH]; cbn [flat_map].
  - constructor.
  - apply Forall_app. split; [apply H | exact IH].
Qed.

(* ------------------------------------------------------------------ *)
(** ** Text fields: the fallback between selectors *)

(** On the item whose primary title element exists but is empty, the code
    resolves the empty title although the secondary selector has the text
    [Dune]: the chain of the specification would have returned it. *)
Lemma c2_empty_primary_blocks_secondary :
  let item := Fixtures.in_page [Fixtures.empty_primary_item]
                Fixtures.empty_primary_item in
  item_title false item = Ok []
  /\ Spec.first_nonempty_text false [sel_title_primary; sel_title_secondary]
       item = js "Dune"
  /\ field_value false TitleField item
     <> Ok (Spec.first_nonempty_text false
              [primary TitleField; secondary TitleField] item).
Proof. vm_compute. repeat split. discriminate. Qed.

(** C2, amended.  For the title and the comment of every item block: the
    secondary selector is consulted only when the primary selector finds
    no element.  Resolving the field throws exactly when the item is a
    form that hides [querySelector] or the element the field is read from
    is a form that hides [textContent], which the element of the title,
    an anchor, never is.  When it does not throw: the field is the
    trimmed text of the primary element when there is one, so the empty
    string when that text is empty; in every other case it is the first
    non-empty trimmed text of the chain primary, secondary, and the empty
    string when there is none. *)
Theorem c2_fallback_only_on_absent_element :
  forall (q : bool) (f : text_field) (item : located),
    match field_value q f item with
    | Thrown _ => field_throws q f item = true
    | Ok v =>
        field_throws q f item = false
        /\ (forall e, querySelector q (primary f) item = Some e ->
                      v = trim (textContent (element e)))
        /\ v = if primary_present_but_empty q f item then []
               else Spec.first_nonempty_text q [primary f; secondary f] item
    end
    /\ hides_text (chosen_element q TitleField item) = false.
Proof.
  intros q f item. split; [|apply title_element_is_no_form].
  unfold field_throws.
  destruct (shadows (element item) (js "querySelector")) eqn:V.
  - destruct f; cbn [field_value]; unfold item_title, item_comment;
      rewrite !lookup_hidden by exact V; reflexivity.
  - cbn [orb].
    assert (G : field_value q f item =
                trimmedText match f with
                            | TitleField => "titleEl?.textContent?.trim"
                            | CommentField => "commentEl?.textContent?.trim"
                            end (chosen_element q f item)).
    { destruct f; cbn [field_value].
      - rewrite (item_title_visible q item V), trimmedText_cases.
        now rewrite title_element_is_no_form.
      - apply item_comment_visible, V. }
    rewrite G, trimmedText_cases.
    destruct (hides_text (chosen_element q f item)); [reflexivity|].
    split; [reflexivity|].
    unfold chosen_element, primary_present_but_empty.
    cbn [Spec.first_nonempty_text].
    destruct (querySelector q (primary f) item) as [e|].
    + split; [now intros e' [= <-]|].
      destruct (trim (textContent (element e))) eqn:E; cbn [truthy negb];
        reflexivity.
    + split; [discriminate|].
      destruct (querySelector q (secondary f) item) as [e|]; [|reflexivity].
      destruct (trim (textContent (element e))); reflexivity.
Qed.

(** The comment element is a form with a control named [textContent],
    and the text [fine]: reading the comment throws. *)
Lemma c2_form_comment_witness :
  let item := Fixtures.in_page [Fixtures.form_comment_item]
                Fixtures.form_comment_item in
  field_throws false CommentField item = true
  /\ exists e, field_value false CommentField item = Thrown e.
Proof.
  intros item.
  destruct (c2_fallback_only_on_absent_element false CommentField item)
    as [H _].
  destruct (field_value false CommentField item) as [v|e] eqn:E.
  - vm_compute in E. discriminate.
  - split; [exact H | now exists e].
Defined.

(* ------------------------------------------------------------------ *)
(** ** Rating *)

(** A rating token that is not the first of its class list is not seen:
    the code leaves the rating at 0 where matching class tokens by pattern
    gives 4. *)
Lemma c3_rating_token_not_first :
  let item := Fixtures.in_page [Fixtures.rating_second_item]
                Fixtures.rating_second_item in
  map (fun e => classList (class_of (element e))) (descendants item)
    = [[js "title"]; []; [js "star"; js "rating4-t"]]
  /\ Spec.rating_by_pattern item = 4
  /\ item_rating false item = Ok 0.
Proof. vm_compute. repeat split. Qed.

(** C3, amended.  The rating is read from one element, the first
    descendant of the item whose class attribute value begins with the
    characters [rating]; an element whose class list has the rating token
    after another token is not that element.
    - When the item is a form that hides [querySelector], reading the
      rating throws.
    - When there is no such element the rating is 0.
    - When the class name of that element is not a string (an SVG element,
      a form that hides [className]), reading the rating throws.
    - Otherwise the pattern [rating<digit>-t] is searched in the whole
      class name: the rating is the digit of its leftmost occurrence,
      whatever stands before and after it, and 0 when it occurs nowhere.
    - A rating other than 0 is always that digit. *)
Theorem c3_rating_of_first_element_with_rating_prefix :
  forall (q : bool) (item : located),
    (shadows (element item) (js "querySelector") = true ->
     exists e, item_rating q item = Thrown e)
    /\ (shadows (element item) (js "querySelector") = false ->
        (rating_element item = None -> item_rating q item = Ok 0)
        /\ (forall span,
              rating_element item = Some span ->
              className (element span) = None ->
              item_rating q item = Thrown TypeError_match)
        /\ (forall span cls pre d,
              rating_element item = Some span ->
              className (element span) = Some cls ->
              leftmost_rating cls pre d ->
              item_rating q item = Ok (parseDigit d))
        /\ (forall span cls,
              rating_element item = Some span ->
              className (element span) = Some cls ->
              (forall pre d post,
                 is_digit d = true -> cls <> pre ++ rating_pattern d ++ post) ->
              item_rating q item = Ok 0))
    /\ (forall r,
          item_rating q item = Ok r ->
          r <> 0 ->
          exists span cls pre d,
            rating_element item = Some span
            /\ className (element span) = Some cls
            /\ leftmost_rating cls pre d
            /\ r = parseDigit d).
Proof.
  intros q item.
  destruct (shadows (element item) (js "querySelector")) eqn:V.
  - assert (T : item_rating q item
                = Thrown (TypeError_not_a_function "item.querySelector")).
    { unfold item_rating. now rewrite lookup_hidden by exact V. }
    split; [intros _; eexists; exact T|].
    split; [discriminate|]. intros r Hr. congruence.
  - split; [discriminate|].
    rewrite (item_rating_visible q item V).
    split.
    + intros _. split; [now intros ->|]. split; [|split].
      * now intros span -> ->.
      * intros span cls pre d -> -> Hl.
        now rewrite (match_rating_leftmost pre cls d Hl).
      * intros span cls -> -> Hno.
        destruct (match_rating cls) as [d|] eqn:E; [|reflexivity].
        apply match_rating_Some in E as [Hd (pre & post & ->)].
        now destruct (Hno pre d post Hd).
    + intros r Hr Hnz.
      destruct (rating_element item) as [span|];
        [|injection Hr as <-; congruence].
      destruct (className (element span)) as [cls|] eqn:Ec; [|discriminate].
      destruct (match_rating cls) as [d|] eqn:E;
        injection Hr as <-; [|congruence].
      destruct (match_rating_leftmost_inv cls d E) as [pre Hl].
      exists span, cls, pre, d. auto.
Qed.

(** The class attribute [ratings rating3-t] begins with [rating] and the
    pattern occurs after its first token: the rating is 3. *)
Lemma c3_rating_pattern_after_first_token_witness :
  item_rating false
    (Fixtures.in_page [Fixtures.rating_later_item] Fixtures.rating_later_item)
  = Ok 3.
Proof.
  pose (item := Fixtures.in_page [Fixtures.rating_later_item]
                  Fixtures.rating_later_item).
  pose (span := mkLocated (element item :: ancestors item)
                  (Fixtures.elem "span" "ratings rating3-t" [])).
  destruct (c3_rating_of_first_element_with_rating_prefix false item)
    as (_ & H & _).
  destruct (H eq_refl) as (_ & _ & H3 & _).
  destruct (match_rating_leftmost_inv (js "ratings rating3-t") 51)
    as [pre Hl]; [vm_compute; reflexivity|].
  apply (H3 span (js "ratings rating3-t") pre 51);
    [vm_compute; reflexivity | vm_compute; reflexivity | exact Hl].
Defined.

(* ------------------------------------------------------------------ *)
(** ** Which items become records *)

(** The item has the title [Alien], but its first element with a class
    beginning with [rating] is an SVG element, whose [className] is not a
    string: line 35 throws, the [catch] logs it, and no record is made. *)
Lemma c5_titled_item_without_record :
  let doc := parseFromString Fixtures.fixture_host
               Fixtures.markup_svg_rating in
  let limit := max_arguments Fixtures.fixture_host in
  map (item_title (quirks doc)) (item_blocks doc) = [Ok (js "Alien")]
  /\ parseDoubanPage Fixtures.fixture_host Fixtures.markup_svg_rating Movie
     = Ok []
  /\ ~ (forall item, In item (item_blocks doc) ->
          ((exists t, item_title (quirks doc) item = Ok t /\ t <> []) <->
           item_records limit (quirks doc) Movie item <> [])).
Proof.
  split; [reflexivity|]. split; [vm_compute; reflexivity|].
  intros H.
  specialize (H (Fixtures.in_page [Fixtures.svg_rating_item]
                   Fixtures.svg_rating_item)).
  assert (I : In (Fixtures.in_page [Fixtures.svg_rating_item]
                    Fixtures.svg_rating_item)
                 (item_blocks
                    (parseFromString Fixtures.fixture_host
                       Fixtures.markup_svg_rating))).
  { vm_compute. now left. }
  apply H in I. destruct I as [I _].
  apply I; [|vm_compute; reflexivity].
  exists (js "Alien"). split; [vm_compute; reflexivity | discriminate].
Qed.

(** C5, amended.  The records of a page are those of its item blocks, in
    document order.  An item block has a record if and only if a non-empty
    title was resolved for it and its extraction did not throw; the title
    of the record is that title.  The extraction of an item throws for
    the causes of [item_fails], and the item is then logged and skipped
    even when it has a title.  An item block whose title is empty has no
    record, writes nothing to the console unless its extraction throws,
    and never makes [parseDoubanPage] throw. *)
Theorem c5_record_iff_title_and_no_failure :
  forall (host : platform) (html : jsstring) (cat : Category),
    let doc := parseFromString host html in
    let q := quirks doc in
    let limit := max_arguments host in
    exists st,
      parseDoubanPage_full host html cat = Ok st
      /\ data st = flat_map (item_records limit q cat) (item_blocks doc)
      /\ console st =
         title_check doc
         ++ flat_map (item_console limit q cat) (item_blocks doc)
      /\ (forall item,
            (exists r, item_records limit q cat item = [r])
            <-> (exists t, item_title q item = Ok t /\ t <> []
                           /\ item_fails limit q item = false))
      /\ (forall item r,
            item_records limit q cat item = [r] ->
            item_title q item = Ok (title r))
      /\ (forall item,
            item_fails limit q item = true <->
            exists e,
              item_try limit q cat item = Thrown e
              /\ item_console limit q cat item
                 = [ConsoleError (js "解析单条数据失败") e])
      /\ (forall item,
            item_title q item = Ok [] ->
            item_records limit q cat item = []
            /\ (item_fails limit q item = false ->
                item_console limit q cat item = [])).
Proof.
  intros host html cat doc q limit.
  unfold parseDoubanPage_full. fold doc limit.
  rewrite parseDocument_eq. fold q.
  eexists. split; [reflexivity|]. cbn [data console].
  split; [reflexivity|]. split; [reflexivity|].
  split; [|split; [|split]].
  - intros item.
    destruct (item_records_cases limit q cat item)
      as [(t & r & c & d & tg & Ht & Hn & _ & _ & _ & _ & Hf & Hr)
         | ([Ht|Hf] & Hr)]; rewrite Hr.
    + split; [intros _; now exists t | intros _; eexists; reflexivity].
    + split; [intros [r Hr']; discriminate|].
      intros (t & Ht' & Hn & _). congruence.
    + split; [intros [r Hr']; discriminate|].
      intros (t & _ & _ & Hn). congruence.
  - intros item r0.
    destruct (item_records_cases limit q cat item)
      as [(t & r & c & d & tg & Ht & _ & _ & _ & _ & _ & _ & Hr)
         | (_ & Hr)]; rewrite Hr; [|discriminate].
    now intros [= <-].
  - intros item. rewrite (item_try_throws limit q cat item).
    unfold item_console.
    destruct (item_try limit q cat item) as [o|e].
    + split; [discriminate | intros (e & E & _); discriminate].
    + split; [intros _; now exists e | reflexivity].
  - intros item Ht. split.
    + destruct (item_records_cases limit q cat item)
        as [(t & r & c & d & tg & Ht' & Hn & _) | (_ & Hr)];
        [congruence | exact Hr].
    + rewrite (item_try_throws limit q cat item). unfold item_console.
      now destruct (item_try limit q cat item).
Qed.

(** An item block without title, on a page of its own: no record, nothing
    on the console. *)
Lemma c5_untitled_item_witness :
  let item := Fixtures.in_page [Fixtures.untitled_item]
                Fixtures.untitled_item in
  let limit := max_arguments Fixtures.fixture_host in
  item_title false item = Ok []
  /\ item_records limit false Movie item = []
  /\ item_console limit false Movie item = [].
Proof.
  intros item limit.
  assert (Ht : item_title false item = Ok []) by (vm_compute; reflexivity).
  destruct (c5_record_iff_title_and_no_failure Fixtures.fixture_host
              Fixtures.markup_empty Movie) as (st & _ & _ & _ & _ & _ & _ & H).
  destruct (H item Ht) as [Hr Hc].
  split; [exact Ht|]. split; [exact Hr|].
  apply Hc. vm_compute. reflexivity.
Defined.

(* ------------------------------------------------------------------ *)
(** ** Extraction never throws *)

(** C9.  For every markup and every category [parseDoubanPage] returns an
    array and does not throw; an item block whose extraction throws is
    skipped, and the records of the page are those of the item blocks
    before it followed by those of the item blocks after it. *)
Theorem c9_parse_never_throws :
  forall (host : platform) (html : jsstring) (cat : Category),
    let doc := parseFromString host html in
    let q := quirks doc in
    let limit := max_arguments host in
    exists items,
      parseDoubanPage host html cat = Ok items
      /\ forall before bad after,
           item_blocks doc = before ++ bad :: after ->
           item_fails limit q bad = true ->
           items = flat_map (item_records limit q cat) before
                   ++ flat_map (item_records limit q cat) after.
Proof.
  intros host html cat doc q limit.
  rewrite parseDoubanPage_eq. fold doc q limit.
  eexists. split; [reflexivity|].
  intros before bad after -> Hbad.
  rewrite flat_map_app. cbn [flat_map].
  destruct (item_records_cases limit q cat bad)
    as [(t & r & c & d & tg & _ & _ & _ & _ & _ & _ & Hf & _) | (_ & Hr)];
    [congruence|].
  now rewrite Hr.
Qed.

(** A page with a good item, an item whose extraction throws, and another
    good item: both good items are extracted, the failure is logged. *)
Lemma c9_bad_item_between_good_items_witness :
  parseDoubanPage Fixtures.fixture_host Fixtures.markup_mixed Book
  = Ok [mkReviewItem (js "Alien") 4 (js "great") (js "2024-01-02") Book [];
        mkReviewItem (js "Alien") 9 [] [] Book []]
  /\ parseDoubanPage_full Fixtures.fixture_host Fixtures.markup_mixed Book
     = Ok (mkParseState
             [mkReviewItem (js "Alien") 4 (js "great") (js "2024-01-02") Book [];
              mkReviewItem (js "Alien") 9 [] [] Book []]
             [ConsoleError (js "解析单条数据失败") TypeError_match]).
Proof.
  pose (body := [Fixtures.good_item; Fixtures.svg_rating_item;
                 Fixtures.rating9_item]).
  destruct (c9_parse_never_throws Fixtures.fixture_host
              Fixtures.markup_mixed Book) as (items & Hp & Hskip).
  split; [|vm_compute; reflexivity].
  rewrite Hp. f_equal.
  rewrite (Hskip [Fixtures.in_page body Fixtures.good_item]
             (Fixtures.in_page body Fixtures.svg_rating_item)
             [Fixtures.in_page body Fixtures.rating9_item]);
    vm_compute; reflexivity.
Defined.

(* ================================================================== *)
(** * Facts about URI encoding and addresses *)

Import Crawl CrawlViews.

Lemma prepend_app (a b : jsstring) (r : result jsstring) :
  prepend a (prepend b r) = prepend (a ++ b) r.
Proof. destruct r; cbn [prepend]; [now rewrite app_assoc | reflexivity]. Qed.

Lemma prepend_nil (r : result jsstring) : prepend [] r = r.
Proof. now destruct r. Qed.

Lemma prepend_Ok (a x : jsstring) (r : result jsstring) :
  prepend a r = Ok x -> exists y, r = Ok y /\ x = a ++ y.
Proof.
  destruct r as [y|e]; cbn [prepend]; [|discriminate].
  intros H; injection H as <-. now exists y.
Qed.

(** Encoding goes through concatenation when the first part is accepted:
    its surrogates are all paired inside it. *)
Lemma encodeURIComponent_app_bounded (n : nat) :
  forall a x b,
    (List.length a <= n)%nat ->
    encodeURIComponent a = Ok x ->
    encodeURIComponent (a ++ b) = prepend x (encodeURIComponent b).
Proof.
  induction n as [|n IH]; intros a x b Hn Ha.
  - destruct a; [|cbn in Hn; lia].
    cbn in Ha. injection Ha as <-. cbn [app]. now rewrite prepend_nil.
  - destruct a as [|c rest].
    + cbn in Ha. injection Ha as <-. cbn [app]. now rewrite prepend_nil.
    + cbn [List.length] in Hn.
      cbn [app encodeURIComponent] in Ha |- *.
      destruct (uri_unreserved c).
      { apply prepend_Ok in Ha as (y & Hy & ->).
        rewrite (IH rest y b) by (auto; lia). now rewrite prepend_app. }
      destruct (is_low_surrogate c); [discriminate|].
      destruct (is_high_surrogate c).
      * destruct rest as [|d rest']; [discriminate|].
        cbn [app List.length] in Hn |- *.
        destruct (is_low_surrogate d); [|discriminate].
        apply prepend_Ok in Ha as (y & Hy & ->).
        rewrite (IH rest' y b) by (auto; lia). now rewrite prepend_app.
      * apply prepend_Ok in Ha as (y & Hy & ->).
        rewrite (IH rest y b) by (auto; lia). now rewrite prepend_app.
Qed.

Lemma encodable_app (a b : jsstring) :
  encodable a = true -> encodable b = true -> encodable (a ++ b) = true.
Proof.
  unfold encodable.
  destruct (encodeURIComponent a) as [x|] eqn:Ea; [|discriminate].
  destruct (encodeURIComponent b) as [y|] eqn:Eb; [|discriminate].
  intros _ _.
  rewrite (encodeURIComponent_app_bounded (List.length a) a x b), Eb by auto.
  reflexivity.
Qed.

(** The addresses of the movie category are on the movie subdomain. *)
Lemma page_url_movie (uid : jsstring) (start : Z) :
  startsWith (js "https://movie.douban.com/") (page_url Movie uid start)
  = true.
Proof. vm_compute. reflexivity. Qed.

(** The address of the first page can be encoded when the user id can. *)
Lemma encodable_page_url (cat : Category) (uid : jsstring) :
  encodable uid = true -> encodable (page_url cat uid 0) = true.
Proof.
  intros Hu. unfold page_url.
  repeat (apply encodable_app); try exact Hu; try reflexivity.
  now destruct cat.
Qed.

(* ================================================================== *)
(** * Properties of the crawl loop *)

Section CrawlFacts.

Variable World : Type.
Variable fetch : jsstring -> World -> fetch_outcome * World.
Variable host : platform.
Variables uid cookie : jsstring.

Local Abbreviation session := (Crawl.session World).
Local Abbreviation try_page := (page_try fetch host uid cookie).
Local Abbreviation iteration := (page_iteration fetch host uid cookie).
Local Abbreviation loop := (page_loop fetch host uid cookie).
Local Abbreviation yield := (page_yield fetch host uid cookie).
Local Abbreviation requested := (after_request fetch uid cookie).
Local Abbreviation pacing_events := (pacing_events cookie).
Local Abbreviation request_events := (request_events uid cookie).
Local Abbreviation always_refused := (always_refused fetch).

(** Logging and sleeping only extend the trace. *)
Lemma before_request_eq (cat : Category) (page : Z) (s : session) :
  before_request cookie cat page s =
  mkSession (world s)
    (trace s ++ Logged (msg_request cat page) :: pacing_events page)
    (allReviews s) (start s).
Proof.
  unfold before_request, pacing_events, sleep, onLog, emit.
  destruct (1 <? page); cbn [world trace allReviews start];
    rewrite <- ?app_assoc; reflexivity.
Qed.

Lemma after_request_eq (cat : Category) (page : Z) (s : session) :
  requested cat page s =
  mkSession
    (snd (fetchViaLocalServer fetch (page_url cat uid (start s)) cookie
            (world s)))
    (trace s ++ request_events cat page s)
    (allReviews s) (start s).
Proof.
  unfold after_request, request_events. rewrite before_request_eq.
  cbn [trace]. now rewrite <- app_assoc.
Qed.

Lemma requests_app (a b : list event) :
  requests (a ++ b) = requests a ++ requests b.
Proof. apply flat_map_app. Qed.

Lemma logs_app (a b : list event) : logs (a ++ b) = logs a ++ logs b.
Proof. apply flat_map_app. Qed.

Lemma requests_request_events (cat : Category) (page : Z) (s : session) :
  requests (request_events cat page s) = [page_url cat uid (start s)].
Proof.
  unfold request_events, pacing_events. now destruct (1 <? page).
Qed.

Lemma logs_request_events (cat : Category) (page : Z) (s : session) :
  logs (request_events cat page s) = [msg_request cat page].
Proof.
  unfold request_events, pacing_events. now destruct (1 <? page).
Qed.

(** The [try] block of a page, by what the page yields. *)
Lemma page_try_eq (cat : Category) (page : Z) (s : session) :
  try_page cat page s =
  match yield cat s with
  | Thrown e => (Throw e, requested cat page s)
  | Ok [] =>
      (Break,
       if page =? 1 then onLog (msg_empty cat) (requested cat page s)
       else requested cat page s)
  | Ok (r :: items) =>
      (Normal,
       mkSession (world (requested cat page s))
         (trace (requested cat page s)
          ++ [Logged (msg_captured (List.length (r :: items)))])
         (allReviews s ++ r :: items) (start s + pageSize))
  end.
Proof.
  unfold page_try, page_yield, after_request.
  rewrite before_request_eq. cbn [world trace allReviews start].
  destruct (fetchViaLocalServer fetch (page_url cat uid (start s)) cookie
              (world s)) as [[html|e] w]; cbn [fst snd]; [|reflexivity].
  destruct (is_block_page html); [reflexivity|].
  destruct (parseDoubanPage host html cat) as [[|r items]|e]; reflexivity.
Qed.

Lemma page_iteration_eq (cat : Category) (page : Z) (s : session) :
  iteration cat page s =
  match yield cat s with
  | Thrown e => (Stop, onLog (msg_stop cat e) (requested cat page s))
  | Ok [] =>
      (Stop,
       if page =? 1 then onLog (msg_empty cat) (requested cat page s)
       else requested cat page s)
  | Ok (r :: items) =>
      (Continue,
       mkSession (world (requested cat page s))
         (trace (requested cat page s)
          ++ [Logged (msg_captured (List.length (r :: items)))])
         (allReviews s ++ r :: items) (start s + pageSize))
  end.
Proof.
  unfold page_iteration. rewrite page_try_eq.
  destruct (yield cat s) as [[|r items]|e]; reflexivity.
Qed.

(** What one iteration does to the session: it extends the trace with one
    request, at the current offset, and extends [allReviews] with what the
    page yields. *)
Lemma page_iteration_effect (cat : Category) (page : Z) (s : session) :
  exists evs items,
    trace (snd (iteration cat page s)) = trace s ++ evs
    /\ requests evs = [page_url cat uid (start s)]
    /\ allReviews (snd (iteration cat page s)) = allReviews s ++ items
    /\ (items = [] \/ yield cat s = Ok items).
Proof.
  rewrite page_iteration_eq, after_request_eq.
  assert (R : forall m,
    requests (request_events cat page s ++ [Logged m])
    = [page_url cat uid (start s)]).
  { intros m. now rewrite requests_app, requests_request_events. }
  destruct (yield cat s) as [[|r items]|e] eqn:E; cbn [snd].
  - destruct (page =? 1); unfold onLog, emit; cbn [trace allReviews].
    + exists (request_events cat page s ++ [Logged (msg_empty cat)]), [].
      rewrite app_nil_r, app_assoc. auto.
    + exists (request_events cat page s), [].
      rewrite app_nil_r, requests_request_events. auto.
  - cbn [trace allReviews].
    exists (request_events cat page s
            ++ [Logged (msg_captured (List.length (r :: items)))]),
           (r :: items).
    rewrite app_assoc. auto.
  - unfold onLog, emit. cbn [trace allReviews].
    exists (request_events cat page s ++ [Logged (msg_stop cat e)]), [].
    rewrite app_nil_r, app_assoc. auto.
Qed.

(** An invariant of the iterations is an invariant of the page loop. *)
Lemma page_loop_invariant (I : session -> Prop) (cat : Category) :
  (forall page s, I s -> I (snd (iteration cat page s))) ->
  forall pages s, I s -> I (loop cat pages s).
Proof.
  intros Hstep pages. induction pages as [|page pages IH]; intros s Hs.
  - exact Hs.
  - cbn [page_loop]. specialize (Hstep page s Hs).
    destruct (iteration cat page s) as [[|] s']; cbn [snd] in Hstep.
    + now apply IH.
    + exact Hstep.
Qed.

(** Pages that let the loop go on are consumed by the loop. *)
Lemma page_loop_continues (cat : Category) (pages rest : list Z)
    (s s' : session) :
  continues fetch host uid cookie cat pages s s' ->
  loop cat (pages ++ rest) s = loop cat rest s'.
Proof.
  induction 1 as [s|page pages s s1 s2 Hit _ IH]; [reflexivity|].
  cbn [app page_loop]. now rewrite Hit.
Qed.

(** Every page that lets the loop go on moves the offset by one page size
    and adds at least one record. *)
Lemma continues_start (cat : Category) (pages : list Z) (s s' : session) :
  continues fetch host uid cookie cat pages s s' ->
  start s' = start s + pageSize * Z.of_nat (List.length pages)
  /\ (List.length (allReviews s) + List.length pages
      <= List.length (allReviews s'))%nat.
Proof.
  induction 1 as [s|page pages s s1 s2 Hit _ [IHs IHr]].
  - cbn [List.length]. split; lia.
  - rewrite page_iteration_eq in Hit.
    destruct (yield cat s) as [[|r items]|e]; try discriminate.
    injection Hit as <-. cbn [start allReviews] in IHs, IHr.
    rewrite length_app in IHr. cbn [List.length] in *. split; lia.
Qed.

Local Abbreviation crawl := (crawlUserReviews fetch host uid cookie).

(** The announcement only logs. *)
Lemma announce_eq (w : World) :
  exists msgs,
    announce cookie w = mkSession w (map Logged msgs) [] 0
    /\ msgs <> [].
Proof.
  unfold announce, onLog, emit.
  destruct (truthy cookie); cbn [negb world trace allReviews start app];
    eexists (_ :: _ :: _ :: nil); split; try reflexivity; discriminate.
Qed.

Lemma requests_logged (msgs : list jsstring) : requests (map Logged msgs) = [].
Proof. induction msgs; [reflexivity | assumption]. Qed.

(** The crawl is the page loop of the movie category, from the
    announcement. *)
Lemma crawl_eq (w : World) :
  crawl w =
  (finish (loop Movie page_numbers (announce cookie w)),
   loop Movie page_numbers (announce cookie w)).
Proof.
  unfold crawlUserReviews, categories, crawl_category. cbn [fold_left].
  destruct (announce_eq w) as (msgs & -> & _). reflexivity.
Qed.

Lemma finish_Ok (s : session) (rs : list ReviewItem) :
  finish s = Ok rs -> rs = allReviews s.
Proof.
  unfold finish. destruct (Z.of_nat _ =? 0); [discriminate|].
  now intros H; injection H as <-.
Qed.

Lemma finish_nonempty (s : session) :
  allReviews s <> [] -> finish s = Ok (allReviews s).
Proof.
  unfold finish. destruct (allReviews s); [congruence|]. reflexivity.
Qed.

Lemma page_yield_parsed (cat : Category) (s : session)
    (items : list ReviewItem) :
  yield cat s = Ok items ->
  exists html, parseDoubanPage host html cat = Ok items.
Proof.
  unfold page_yield.
  destruct (fst _) as [html|e]; [|discriminate].
  destruct (is_block_page html); [discriminate|]. now exists html.
Qed.

(** A property of all records extracted from movie pages holds of all
    records the crawl collects. *)
Lemma crawl_records (P : ReviewItem -> Prop) :
  (forall html items,
     parseDoubanPage host html Movie = Ok items -> Forall P items) ->
  forall w, Forall P (allReviews (snd (crawl w))).
Proof.
  intros HP w. rewrite crawl_eq. cbn [snd].
  apply page_loop_invariant with (I := fun s => Forall P (allReviews s)).
  - intros page s Hs.
    destruct (page_iteration_effect Movie page s)
      as (evs & items & _ & _ & -> & Hitems).
    apply Forall_app. split; [exact Hs|].
    destruct Hitems as [->|Hy]; [constructor|].
    apply page_yield_parsed in Hy as [html Hy]. eapply HP; eassumption.
  - destruct (announce_eq w) as (msgs & -> & _). constructor.
Qed.

(* ------------------------------------------------------------------ *)
(** ** The iterations of the page loop *)

Local Abbreviation iterations := (iterations fetch host uid cookie).

(** Each iteration begins where the one before it ended, and the loop
    ends where the last one ended. *)
Lemma iterations_chain (cat : Category) (pages : list Z) :
  forall s,
    map fst (iterations cat pages s) ++ [loop cat pages s]
    = s :: map snd (iterations cat pages s).
Proof.
  induction pages as [|page pages IH]; intros s; [reflexivity|].
  cbn [CrawlViews.iterations page_loop].
  destruct (iteration cat page s) as [[|] s1]; cbn [map fst snd app].
  - now rewrite IH.
  - reflexivity.
Qed.

Lemma iterations_length (cat : Category) (pages : list Z) :
  forall s,
    (List.length (iterations cat pages s) <= List.length pages)%nat
    /\ (pages <> [] -> 1 <= List.length (iterations cat pages s))%nat.
Proof.
  induction pages as [|page pages IH]; intros s; cbn [CrawlViews.iterations].
  - split; [reflexivity | congruence].
  - destruct (iteration cat page s) as [[|] s1]; cbn [List.length].
    + destruct (IH s1) as [IH1 _]. split; lia.
    + split; lia.
Qed.

(** What holds of every iteration, from whatever session and for whatever
    page number, holds of the iterations of the loop. *)
Lemma iterations_Forall (P : session * session -> Prop) (cat : Category) :
  (forall page s, P (s, snd (iteration cat page s))) ->
  forall pages s, Forall P (iterations cat pages s).
Proof.
  intros HP pages.
  induction pages as [|page pages IH]; intros s; cbn [CrawlViews.iterations].
  - constructor.
  - specialize (HP page s).
    destruct (iteration cat page s) as [[|] s1]; cbn [snd] in HP;
      constructor; auto.
Qed.

(** The loop goes on exactly after the pages that yield records: every
    iteration but the last has records. *)
Lemma iterations_go_on (cat : Category) (pages : list Z) :
  forall s,
    Forall (fun it => has_records (yield cat (fst it)) = true)
      (removelast (iterations cat pages s)).
Proof.
  induction pages as [|page pages IH]; intros s; cbn [CrawlViews.iterations].
  - constructor.
  - destruct (iteration cat page s) as [c s1] eqn:E.
    rewrite page_iteration_eq in E.
    destruct c.
    + specialize (IH s1).
      destruct (iterations cat pages s1) as [|it its] eqn:Ei.
      * constructor.
      * change (removelast ((s, s1) :: it :: its))
          with ((s, s1) :: removelast (it :: its)).
        constructor; [|exact IH]. cbn [fst].
        destruct (yield cat s) as [[|r items]|e]; try discriminate.
        reflexivity.
    + constructor.
Qed.

(** The offset is the page size times the number of pages with records,
    and the records are those pages' records. *)
Lemma iterations_totals (cat : Category) (pages : list Z) :
  forall s,
    start (loop cat pages s)
    = start s
      + pageSize
        * Z.of_nat
            (List.length
               (filter (fun it => has_records (yield cat (fst it)))
                  (iterations cat pages s)))
    /\ allReviews (loop cat pages s)
       = allReviews s
         ++ flat_map (fun it => records_of (yield cat (fst it)))
              (iterations cat pages s)
    /\ requests (trace (loop cat pages s))
       = requests (trace s)
         ++ map (fun it => page_url cat uid (start (fst it)))
              (iterations cat pages s).
Proof.
  induction pages as [|page pages IH]; intros s;
    cbn [CrawlViews.iterations page_loop].
  - cbn [filter List.length flat_map map]. rewrite !app_nil_r.
    split; [lia | split; reflexivity].
  - destruct (iteration cat page s) as [c s1] eqn:E.
    rewrite page_iteration_eq, after_request_eq in E.
    assert (R : forall m,
      requests (trace s ++ request_events cat page s ++ [Logged m])
      = requests (trace s) ++ [page_url cat uid (start s)]).
    { intros m. now rewrite !requests_app, requests_request_events. }
    cbn [filter flat_map map fst].
    destruct (yield cat s) as [[|r items]|e];
      injection E as <- <-; cbn [has_records records_of app List.length].
    + rewrite !app_nil_r.
      destruct (page =? 1); unfold onLog, emit;
        cbn [start allReviews trace world filter List.length flat_map map];
        rewrite ?app_nil_r;
        (split; [lia|]); (split; [reflexivity|]).
      * rewrite <- app_assoc. apply R.
      * now rewrite requests_app, requests_request_events.
    + match goal with
      | |- context [loop cat pages ?s1] =>
          destruct (IH s1) as (IHs & IHr & IHq)
      end.
      rewrite IHs, IHr, IHq.
      cbn [start allReviews trace List.length filter flat_map map].
      split; [lia|]. split; [now rewrite <- app_assoc|].
      rewrite <- app_assoc, R. now rewrite <- app_assoc.
    + unfold onLog, emit.
      cbn [start allReviews trace world filter List.length flat_map map].
      rewrite ?app_nil_r.
      split; [lia|]. split; [reflexivity|].
      rewrite <- app_assoc. apply R.
Qed.

(* ------------------------------------------------------------------ *)
(** ** The page offset *)


(* ------------------------------------------------------------------ *)
(** ** An empty first page *)

(** C7.  When the first page of a category is fetched and yields no
    record, the [try] block completes with [break] (nothing is thrown),
    the category makes that one request only, the information message is
    logged after it, and the records are unchanged, so that the outcome of
    the crawl is the one it had before this category.  On a later page
    that yields no record only the request is logged. *)
Theorem c7_empty_first_page_stops_category :
  forall (cat : Category) (s : session),
    let s0 := mkSession (world s) (trace s) (allReviews s) 0 in
    yield cat s0 = Ok [] ->
    fst (try_page cat 1 s0) = Break
    /\ trace (crawl_category fetch host uid cookie s cat) =
       trace s ++ [Logged (msg_request cat 1);
                   Requested (page_url cat uid 0);
                   Logged (msg_empty cat)]
    /\ allReviews (crawl_category fetch host uid cookie s cat)
       = allReviews s
    /\ finish (crawl_category fetch host uid cookie s cat) = finish s
    /\ (forall page s1,
          page <> 1 ->
          yield cat s1 = Ok [] ->
          logs (trace (snd (iteration cat page s1)))
          = logs (trace s1) ++ [msg_request cat page]).
Proof.
  intros cat s s0 Hy.
  assert (Hr : allReviews (crawl_category fetch host uid cookie s cat)
               = allReviews s).
  { unfold crawl_category. fold s0.
    change page_numbers with [1; 2; 3; 4]. cbn [page_loop].
    rewrite page_iteration_eq, Hy. reflexivity. }
  split; [|split; [|split; [exact Hr|split]]].
  - rewrite page_try_eq, Hy. reflexivity.
  - unfold crawl_category. fold s0.
    change page_numbers with [1; 2; 3; 4]. cbn [page_loop].
    rewrite page_iteration_eq, Hy, after_request_eq.
    cbn [Z.eqb Pos.eqb]. unfold onLog, emit. cbn [trace].
    rewrite <- app_assoc. reflexivity.
  - unfold finish. now rewrite Hr.
  - intros page s1 Hp Hy1.
    rewrite page_iteration_eq, Hy1, after_request_eq.
    destruct (Z.eqb_spec page 1) as [->|_]; [contradiction|].
    cbn [snd trace]. now rewrite logs_app, logs_request_events.
Qed.

(* ------------------------------------------------------------------ *)
(** ** Only the movie category *)

(** C10.  Whatever the user id, the cookie and the network do, every
    address the crawl requests is on the movie subdomain, and every record
    it collects, hence every record it returns, has the category
    [movie]. *)
Theorem c10_only_movie_pages_and_records :
  forall w : World,
    Forall (fun url => startsWith (js "https://movie.douban.com/") url = true)
      (requests (trace (snd (crawl w))))
    /\ Forall (fun r => category r = Movie) (allReviews (snd (crawl w)))
    /\ match fst (crawl w) with
       | Ok rs => Forall (fun r => category r = Movie) rs
       | Thrown _ => True
       end.
Proof.
  intros w.
  assert (Hc : Forall (fun r => category r = Movie)
                 (allReviews (snd (crawl w)))).
  { apply crawl_records. intros html items.
    rewrite parseDoubanPage_eq. intros H; injection H as <-.
    apply Forall_flat_map. intros item. apply item_records_in_category. }
  split; [|split; [exact Hc|]].
  - rewrite crawl_eq. cbn [snd].
    apply page_loop_invariant
      with (I := fun s =>
                   Forall (fun url =>
                             startsWith (js "https://movie.douban.com/") url
                             = true) (requests (trace s))).
    + intros page s Hs.
      destruct (page_iteration_effect Movie page s)
        as (evs & items & -> & Hr & _).
      rewrite requests_app, Hr. apply Forall_app. split; [exact Hs|].
      constructor; [|constructor].
      apply page_url_movie.
    + destruct (announce_eq w) as (msgs & -> & _). cbn [trace].
      rewrite requests_logged. constructor.
  - rewrite crawl_eq in Hc |- *. cbn [fst snd] in Hc |- *.
    destruct (finish _) as [rs|e] eqn:E; [|exact I].
    apply finish_Ok in E. now subst rs.
Qed.

(** A page that fails ends the loop: the failure is logged and nothing
    else happens. *)
Lemma page_loop_failure (cat : Category) (page : Z) (rest : list Z)
    (s : session) (e : Error) :
  yield cat s = Thrown e ->
  loop cat (page :: rest) s =
  mkSession
    (snd (fetchViaLocalServer fetch (page_url cat uid (start s)) cookie
            (world s)))
    (trace s ++ request_events cat page s ++ [Logged (msg_stop cat e)])
    (allReviews s) (start s).
Proof.
  intros Hy. cbn [page_loop].
  rewrite page_iteration_eq, Hy, after_request_eq.
  unfold onLog, emit. cbn [world trace allReviews start].
  now rewrite <- app_assoc.
Qed.

(* ------------------------------------------------------------------ *)
(** ** A failure on page n *)

(** C8.  Let the pages before page [n] have each let the loop go on, and
    let page [n] fail (its fetch fails or it is a block page).  Then the
    crawl ends with the request of page [n] and the log entry of the
    failure: no further page is requested, the records collected from the
    earlier pages are all kept, and they are what [crawlUserReviews]
    returns when there is an earlier page. *)
Theorem c8_failure_keeps_earlier_records :
  forall (w : World) (before after : list Z) (n : Z) (s : session)
         (e : Error),
    page_numbers = before ++ n :: after ->
    continues fetch host uid cookie Movie before (announce cookie w) s ->
    yield Movie s = Thrown e ->
    trace (snd (crawl w)) =
      trace s ++ request_events Movie n s ++ [Logged (msg_stop Movie e)]
    /\ requests (trace (snd (crawl w))) =
       requests (trace s) ++ [page_url Movie uid (start s)]
    /\ allReviews (snd (crawl w)) = allReviews s
    /\ (before <> [] -> fst (crawl w) = Ok (allReviews s)).
Proof.
  intros w before after n s e Hpages Hcont Hy.
  rewrite crawl_eq, Hpages. cbn [fst snd].
  rewrite (page_loop_continues _ _ _ _ _ Hcont).
  rewrite (page_loop_failure _ _ _ _ _ Hy). cbn [trace allReviews].
  split; [reflexivity|]. split; [|split; [reflexivity|]].
  - rewrite !requests_app, requests_request_events. reflexivity.
  - intros Hb. rewrite finish_nonempty; cbn [allReviews]; [reflexivity|].
    apply continues_start in Hcont as [_ Hlen].
    destruct before; [congruence|].
    destruct (allReviews s); [cbn in Hlen; lia | discriminate].
Qed.

(* ------------------------------------------------------------------ *)
(** ** A network that refuses every connection *)

Lemma fetchViaLocalServer_refused (url : jsstring) (w : World) :
  always_refused ->
  exists e,
    fst (fetchViaLocalServer fetch url cookie w) = Thrown e
    /\ (encodable url = true -> encodable cookie = true -> e = proxyError).
Proof.
  intros Hall. unfold fetchViaLocalServer, encodable.
  destruct (encodeURIComponent cookie) as [ec|e1].
  - destruct (encodeURIComponent url) as [eu|e2].
    + destruct (Hall (js "/fetch" ++ js "?url=" ++ eu ++ js "&cookie=" ++ ec) w)
        as (e & w' & -> & He).
      cbn [fst response_body rethrow]. rewrite He.
      exists proxyError. auto.
    + exists e2. split; [reflexivity | discriminate].
  - exists e1. split; [reflexivity | intros _; discriminate].
Qed.

(** C1, amended.  When the network refuses every connection,
    [crawlUserReviews] fails with the error of the empty result, whose
    message lists the possible causes and does not point at the local
    proxy.  One page was requested; the hint at the proxy is in the
    message of the error [fetchViaLocalServer] threw, which is only given
    to the log: it is the last log entry when the user id and the cookie
    can be URI-encoded. *)
Theorem c1_refused_connection_surfaces_as_empty_result :
  always_refused ->
  forall w : World,
    fst (crawl w) = Thrown emptyError
    /\ Spec.references_local_proxy (message emptyError) = false
    /\ requests (trace (snd (crawl w))) = [page_url Movie uid 0]
    /\ (encodable uid = true -> encodable cookie = true ->
        last (logs (trace (snd (crawl w)))) [] = msg_stop Movie proxyError
        /\ Spec.references_local_proxy (msg_stop Movie proxyError) = true).
Proof.
  intros Hall w. rewrite crawl_eq. cbn [fst snd].
  destruct (announce_eq w) as (msgs & Ha & _).
  destruct (fetchViaLocalServer_refused (page_url Movie uid 0) w Hall)
    as (e & He & Hproxy).
  assert (Hy : page_yield fetch host uid cookie Movie (announce cookie w)
               = Thrown e).
  { unfold page_yield. rewrite Ha. cbn [start world]. now rewrite He. }
  change page_numbers with [1; 2; 3; 4].
  rewrite (page_loop_failure _ _ _ _ _ Hy).
  rewrite Ha. cbn [trace allReviews start].
  split; [reflexivity|]. split; [vm_compute; reflexivity|]. split.
  - rewrite !requests_app, requests_logged, requests_request_events.
    reflexivity.
  - intros Hu Hc.
    rewrite (Hproxy (encodable_page_url Movie uid Hu) Hc).
    rewrite app_assoc, logs_app. cbn [logs flat_map app].
    rewrite last_last. split; [reflexivity | vm_compute; reflexivity].
Qed.

End CrawlFacts.

(* ------------------------------------------------------------------ *)
(** ** Crawls over the fixture networks *)

(** The refusing network, the user id [u1] and no cookie. *)
Lemma c1_refused_connection_witness :
  let run := crawlUserReviews Fixtures.refusing Fixtures.fixture_host
               (js "u1") (js "") tt in
  fst run = Thrown emptyError
  /\ last (logs (trace (snd run))) [] = msg_stop Movie proxyError.
Proof.
  intros run.
  assert (Hall : always_refused Fixtures.refusing).
  { intros url w. exists (mkError (js "Failed to fetch")), w.
    split; [reflexivity | vm_compute; reflexivity]. }
  destruct (c1_refused_connection_surfaces_as_empty_result unit
              Fixtures.refusing Fixtures.fixture_host (js "u1") (js "")
              Hall tt) as (H1 & _ & _ & H4).
  split; [exact H1|].
  apply H4; vm_compute; reflexivity.
Defined.

(** With a network that refuses every connection the crawl fails, but
    with the error of the empty result: its message does not point at the
    local proxy. *)
Lemma c1_error_does_not_mention_proxy :
  let run := crawlUserReviews Fixtures.refusing Fixtures.fixture_host
               (js "u1") (js "") tt in
  fst run = Thrown emptyError
  /\ ~ (exists e, fst run = Thrown e
                  /\ Spec.references_local_proxy (message e) = true).
Proof.
  intros run.
  assert (H : fst run = Thrown emptyError) by (vm_compute; reflexivity).
  split; [exact H|].
  intros (e & He & Hm). rewrite H in He. injection He as <-.
  vm_compute in Hm. discriminate.
Qed.


(** A crawl whose first page is empty: one request, then the information
    message. *)
Lemma c7_empty_first_page_witness :
  let s := announce (js "") [Fixtures.success Fixtures.markup_empty] in
  page_yield Fixtures.scripted Fixtures.fixture_host (js "u1") (js "")
    Movie s = Ok []
  /\ logs (trace (crawl_category Fixtures.scripted Fixtures.fixture_host
                    (js "u1") (js "") s Movie))
     = logs (trace s) ++ [msg_request Movie 1; msg_empty Movie]
  /\ requests (trace (crawl_category Fixtures.scripted
                        Fixtures.fixture_host (js "u1") (js "") s Movie))
     = [page_url Movie (js "u1") 0].
Proof.
  intros s.
  assert (H : page_yield Fixtures.scripted Fixtures.fixture_host
                (js "u1") (js "") Movie
                (mkSession (world s) (trace s) (allReviews s) 0) = Ok [])
    by (vm_compute; reflexivity).
  split; [vm_compute; reflexivity|].
  destruct (c7_empty_first_page_stops_category _ Fixtures.scripted
              Fixtures.fixture_host (js "u1") (js "") Movie s H)
    as (_ & Ht & _).
  rewrite Ht, logs_app, requests_app. split; vm_compute; reflexivity.
Defined.

(** A crawl whose first page has one record and whose second page is
    answered by the proxy with its redirect refusal (status 403): the
    record of page 1 is returned and page 3 is not requested. *)
Lemma c8_failure_on_second_page_witness :
  let w := [Fixtures.success Fixtures.markup_good; Fixtures.redirected] in
  let run := crawlUserReviews Fixtures.scripted Fixtures.fixture_host
               (js "u1") (js "") w in
  fst run = Ok [mkReviewItem (js "Alien") 4 (js "great") (js "2024-01-02")
                  Movie []]
  /\ requests (trace (snd run)) =
     [page_url Movie (js "u1") 0; page_url Movie (js "u1") 15].
Proof.
  intros w run.
  pose (s1 := snd (page_iteration Fixtures.scripted Fixtures.fixture_host
                     (js "u1") (js "") Movie 1 (announce (js "") w))).
  assert (Hc : continues Fixtures.scripted Fixtures.fixture_host
                 (js "u1") (js "") Movie [1] (announce (js "") w) s1).
  { eapply continues_cons; [vm_compute; reflexivity | apply continues_nil]. }
  destruct (c8_failure_keeps_earlier_records _ Fixtures.scripted
              Fixtures.fixture_host (js "u1") (js "") w [1] [3; 4] 2 s1
              forbiddenError eq_refl Hc)
    as (_ & Hreq & _ & Hret).
  - vm_compute. reflexivity.
  - split.
    + subst run. rewrite Hret by discriminate. vm_compute. reflexivity.
    + subst run. rewrite Hreq. vm_compute. reflexivity.
Defined.

(* ------------------------------------------------------------------ *)
(** ** The range of the rating *)

(** The pattern accepts any digit: a page whose rating class is
    [rating9-t] gives a record with rating 9, which [crawlUserReviews]
    returns. *)
Lemma c4_rating_nine :
  let r9 := mkReviewItem (js "Alien") 9 [] [] Movie [] in
  parseDoubanPage Fixtures.fixture_host Fixtures.markup_rating9 Movie
    = Ok [r9]
  /\ fst (crawlUserReviews Fixtures.scripted Fixtures.fixture_host
            (js "u1") (js "") [Fixtures.success Fixtures.markup_rating9])
     = Ok [r9]
  /\ ~ (0 <= rating r9 <= 5).
Proof.
  intros r9. split; [vm_compute; reflexivity|].
  split; [vm_compute; reflexivity|]. cbn [rating r9]. lia.
Qed.

(** C4, amended.  For every markup, every record produced by the
    extraction has an integer rating between 0 and 9, and so has every
    record returned by [crawlUserReviews]. *)
Theorem c4_rating_between_0_and_9 :
  forall (World : Type) (fetch : jsstring -> World -> fetch_outcome * World)
         (host : platform) (uid cookie : jsstring) (w : World),
    (forall html cat,
       exists items,
         parseDoubanPage host html cat = Ok items
         /\ Forall (fun r => 0 <= rating r <= 9) items)
    /\ match fst (crawlUserReviews fetch host uid cookie w) with
       | Ok rs => Forall (fun r => 0 <= rating r <= 9) rs
       | Thrown _ => True
       end.
Proof.
  intros World fetch host uid cookie w.
  assert (HP : forall html cat items,
             parseDoubanPage host html cat = Ok items ->
             Forall (fun r => 0 <= rating r <= 9) items).
  { intros html cat items. rewrite parseDoubanPage_eq.
    intros H; injection H as <-.
    apply Forall_flat_map. intros item. apply item_records_rating. }
  split.
  - intros html cat. rewrite parseDoubanPage_eq. eexists. split; [reflexivity|].
    eapply HP. apply parseDoubanPage_eq.
  - pose proof (crawl_records World fetch host uid cookie _
                  (fun html => HP html Movie) w) as Hc.
    rewrite crawl_eq in Hc |- *. cbn [fst snd] in Hc |- *.
    destruct (finish _) as [rs|e] eqn:E; [|exact I].
    apply finish_Ok in E. now subst rs.
Qed.

(* ================================================================== *)
(** * Further properties: strings *)

Import MoreViews.

(** ** Trimming *)

Lemma trimStart_head (s : jsstring) (c : Z) (t : jsstring) :
  trimStart s = c :: t -> is_space c = false.
Proof.
  induction s as [|x s IH]; cbn [trimStart]; [discriminate|].
  destruct (is_space x) eqn:E; [exact IH|].
  intros H; injection H as <- _. exact E.
Qed.

Lemma trimStart_snoc (l : jsstring) (c : Z) :
  is_space c = false -> trimStart (l ++ [c]) = trimStart l ++ [c].
Proof.
  intros Hc. induction l as [|x l IH]; cbn [trimStart app].
  - now rewrite Hc.
  - destruct (is_space x); [exact IH | reflexivity].
Qed.

(** What [trim] returns has no white space at either end. *)
Lemma trim_no_outer_space (s : jsstring) : no_outer_space (trim s).
Proof.
  unfold trim, trimEnd.
  destruct (trimStart s) as [|c t] eqn:Et; [exact I|].
  pose proof (trimStart_head _ _ _ Et) as Hc.
  cbn [rev]. rewrite (trimStart_snoc _ _ Hc), rev_app_distr. cbn [rev app].
  unfold no_outer_space. split; [exact Hc|].
  destruct (trimStart (rev t)) as [|x u] eqn:Eu.
  - exact Hc.
  - cbn [rev]. change (c :: rev u ++ [x]) with ((c :: rev u) ++ [x]).
    rewrite last_last. eapply trimStart_head; eassumption.
Qed.

(** ** Splitting on white space *)

Lemma split_ws_no_space (s : jsstring) :
  forall cur in_ws,
    Forall (fun c => is_space c = false) cur ->
    Forall (Forall (fun c => is_space c = false)) (split_ws cur in_ws s).
Proof.
  induction s as [|c s IH]; intros cur in_ws Hcur; cbn [split_ws].
  - constructor; [|constructor]. now apply Forall_rev.
  - destruct (is_space c) eqn:Ec.
    + destruct in_ws.
      * apply IH. constructor.
      * constructor; [now apply Forall_rev | apply IH; constructor].
    + apply IH. now constructor.
Qed.

Lemma split_ws_nonempty (s : jsstring) :
  forall cur in_ws,
    cur <> [] \/ in_ws = true ->
    match s with
    | [] => cur <> []
    | _ :: _ => is_space (last s 0) = false
    end ->
    Forall (fun t => t <> []) (split_ws cur in_ws s).
Proof.
  induction s as [|c s IH]; intros cur in_ws Hst Hend; cbn [split_ws].
  - constructor; [|constructor].
    destruct cur; [congruence|]. cbn [rev]. now destruct (rev cur).
  - assert (Hnext : is_space c = true ->
              match s with
              | [] => False
              | _ :: _ => is_space (last s 0) = false
              end).
    { intros Hc. destruct s; [cbn in Hend; congruence | exact Hend]. }
    destruct (is_space c) eqn:Ec.
    + specialize (Hnext eq_refl).
      assert (Hs : Forall (fun t => t <> []) (split_ws [] true s)).
      { apply IH; [now right|]. destruct s; [contradiction | exact Hnext]. }
      destruct in_ws; [exact Hs|].
      constructor; [|exact Hs].
      destruct Hst as [Hc|Hc]; [|discriminate].
      destruct cur; [congruence|]. cbn [rev]. now destruct (rev cur).
    + apply IH; [left; discriminate|].
      destruct s; [discriminate | exact Hend].
Qed.

(** The pieces of a non-empty string without white space at its ends are
    non-empty and free of white space. *)
Lemma splitWhitespace_words (s : jsstring) :
  s <> [] -> no_outer_space s ->
  Forall (fun t => t <> [] /\ Forall (fun c => is_space c = false) t)
    (splitWhitespace s).
Proof.
  intros Hs Hc.
  apply Forall_and.
  - destruct s as [|c s]; [congruence|]. destruct Hc as [Hc Hl].
    unfold splitWhitespace. cbn [split_ws]. rewrite Hc.
    apply split_ws_nonempty; [left; discriminate|].
    destruct s; [discriminate | exact Hl].
  - apply split_ws_no_space. constructor.
Qed.

(** ** Searching a string *)

(** An occurrence of [c :: p] in [a ++ b] lies in [b] when [c] does not
    occur in [a]. *)
Lemma includes_skip_prefix (c : Z) (p a b : jsstring) :
  Forall (fun x => x <> c) a ->
  includes (c :: p) (a ++ b) = includes (c :: p) b.
Proof.
  induction 1 as [|x a Hx _ IH]; [reflexivity|].
  cbn [app]. change (includes (c :: p) (x :: a ++ b))
    with (startsWith (c :: p) (x :: a ++ b) || includes (c :: p) (a ++ b)).
  cbn [startsWith]. destruct (Z.eqb_spec c x) as [->|_]; [congruence|].
  exact IH.
Qed.

(* ================================================================== *)
(** * Further properties: extraction *)

Lemma bind_Ok {A B : Type} (r : result A) (k : A -> result B) (b : B) :
  bind r k = Ok b -> exists a, r = Ok a /\ k a = Ok b.
Proof. destruct r as [a|e]; [now exists a | discriminate]. Qed.

Lemma trimmedText_no_outer_space (callee : string) (el : option located)
    (t : jsstring) :
  trimmedText callee el = Ok t -> no_outer_space t.
Proof.
  destruct el as [e|]; cbn [trimmedText].
  - destruct (textContentProperty (element e)); [|discriminate].
    intros [= <-]. apply trim_no_outer_space.
  - intros [= <-]. exact I.
Qed.

Lemma item_title_no_outer_space (q : bool) (item : located) (t : jsstring) :
  item_title q item = Ok t -> no_outer_space t.
Proof.
  unfold item_title. intros H. apply bind_Ok in H as (el & _ & H).
  eapply trimmedText_no_outer_space, H.
Qed.

Lemma item_comment_no_outer_space (q : bool) (item : located)
    (t : jsstring) :
  item_comment q item = Ok t -> no_outer_space t.
Proof.
  unfold item_comment. intros H. apply bind_Ok in H as (el & _ & H).
  eapply trimmedText_no_outer_space, H.
Qed.

Lemma item_date_no_outer_space (q : bool) (item : located) (t : jsstring) :
  item_date q item = Ok t -> no_outer_space t.
Proof.
  unfold item_date. intros H. apply bind_Ok in H as (el & _ & H).
  eapply trimmedText_no_outer_space, H.
Qed.

Lemma item_tags_words (limit : nat) (q : bool) (item : located)
    (tg : list jsstring) :
  item_tags limit q item = Ok tg ->
  Forall (fun t => t <> [] /\ Forall (fun c => is_space c = false) t) tg.
Proof.
  unfold item_tags. intros H. apply bind_Ok in H as (tagEl & _ & H).
  destruct tagEl as [el|]; [|injection H as <-; constructor].
  destruct (textContentProperty (element el)) as [text|]; [|discriminate].
  destruct (truthy text); [|injection H as <-; constructor].
  destruct (trim (removeFirst (js "标签: ") text)) as [|c t] eqn:E;
    cbn [truthy] in H; [injection H as <-; constructor|].
  destruct (_ <? _)%nat; [discriminate|]. injection H as <-.
  rewrite <- E. apply splitWhitespace_words.
  - rewrite E. discriminate.
  - apply trim_no_outer_space.
Qed.

(** A property of the records of every item holds of the records of every
    page. *)
Lemma parseDoubanPage_records (P : ReviewItem -> Prop)
    (host : platform) (html : jsstring) (cat : Category) :
  (forall q item, Forall P (item_records (max_arguments host) q cat item)) ->
  exists items,
    parseDoubanPage host html cat = Ok items /\ Forall P items.
Proof.
  intros HP. rewrite parseDoubanPage_eq. eexists. split; [reflexivity|].
  apply Forall_flat_map. intros item. apply HP.
Qed.

(** X8.  In every record [parseDoubanPage] returns, the title is not empty
    and the title, the comment and the date have no white space at either
    end. *)
Theorem record_text_fields_are_trimmed :
  forall (host : platform) (html : jsstring) (cat : Category),
    exists items,
      parseDoubanPage host html cat = Ok items
      /\ Forall (fun r => title r <> []
                          /\ no_outer_space (title r)
                          /\ no_outer_space (comment r)
                          /\ no_outer_space (date r)) items.
Proof.
  intros host html cat. apply parseDoubanPage_records.
  intros q item.
  destruct (item_records_cases (max_arguments host) q cat item)
    as [(t & r & c & d & tg & Ht & Hn & _ & Hc & Hd & _ & _ & ->) | (_ & ->)];
    constructor; [|constructor].
  cbn [title comment date].
  split; [exact Hn|]. split; [|split].
  - eapply item_title_no_outer_space, Ht.
  - eapply item_comment_no_outer_space, Hc.
  - eapply item_date_no_outer_space, Hd.
Qed.

(** X9.  In every record [parseDoubanPage] returns, every tag is a
    non-empty string without any white space: a tag block that is empty
    once the label is removed gives no tag at all, never an empty one. *)
Theorem record_tags_are_words :
  forall (host : platform) (html : jsstring) (cat : Category),
    exists items,
      parseDoubanPage host html cat = Ok items
      /\ Forall (fun r =>
                   Forall (fun t => t <> []
                                    /\ Forall (fun c => is_space c = false) t)
                     (tags r)) items.
Proof.
  intros host html cat. apply parseDoubanPage_records.
  intros q item.
  destruct (item_records_cases (max_arguments host) q cat item)
    as [(t & r & c & d & tg & _ & _ & _ & _ & _ & Hg & _ & ->) | (_ & ->)];
    constructor; [|constructor].
  cbn [tags]. eapply item_tags_words, Hg.
Qed.

Lemma item_records_with_category (limit : nat) (q : bool)
    (c1 c2 : Category) (item : located) :
  item_records limit q c2 item
  = map (with_category c2) (item_records limit q c1 item).
Proof.
  unfold item_records, item_try.
  destruct (item_title q item) as [t|]; cbn [bind]; [|reflexivity].
  destruct (item_rating q item) as [r|]; cbn [bind]; [|reflexivity].
  destruct (item_comment q item) as [c|]; cbn [bind]; [|reflexivity].
  destruct (item_date q item) as [d|]; cbn [bind]; [|reflexivity].
  destruct (item_tags limit q item) as [tg|]; cbn [bind]; [|reflexivity].
  destruct (truthy t); reflexivity.
Qed.

(** X10.  The category given to [parseDoubanPage] is copied into the
    records and has no other effect: with another category the same
    markup gives the same records, in the same order, with only that
    field changed. *)
Theorem category_only_labels_records :
  forall (host : platform) (html : jsstring) (c1 c2 : Category),
    exists items,
      parseDoubanPage host html c1 = Ok items
      /\ parseDoubanPage host html c2 = Ok (map (with_category c2) items)
      /\ Forall (fun r => category r = c1) items.
Proof.
  intros host html c1 c2. rewrite !parseDoubanPage_eq.
  eexists. split; [reflexivity|]. split.
  - f_equal.
    induction (item_blocks (parseFromString host html)) as [|item l IH];
      [reflexivity|].
    cbn [flat_map]. now rewrite map_app, <- IH,
      (item_records_with_category _ _ c1 c2).
  - apply Forall_flat_map. intros item. apply item_records_in_category.
Qed.

(* ================================================================== *)
(** * Further properties: [fetchViaLocalServer] *)

(** ** The decimal rendering of a number *)

Lemma utf16_digits (d : Decimal.uint) :
  Forall (fun c => 48 <= c <= 57) (JS.utf16 0 0 (NilEmpty.string_of_uint d)).
Proof.
  induction d; cbn; constructor; solve [lia | assumption].
Qed.

Lemma ofZ_characters (n : Z) :
  Forall (fun c => c = 45 \/ 48 <= c <= 57) (ofZ n).
Proof.
  assert (D : forall d,
    Forall (fun c => c = 45 \/ 48 <= c <= 57)
      (JS.utf16 0 0 (NilZero.string_of_uint d))).
  { intros d.
    assert (E : Forall (fun c => c = 45 \/ 48 <= c <= 57)
                  (JS.utf16 0 0 (NilEmpty.string_of_uint d))).
    { eapply Forall_impl; [|apply utf16_digits]. cbn. intros c Hc. now right. }
    destruct d; try exact E. cbn. constructor; [right; lia | constructor]. }
  unfold ofZ, lit. destruct (Z.to_int n) as [d|d]; cbn [NilZero.string_of_int].
  - apply D.
  - change (JS.utf16 0 0 (String "-" (NilZero.string_of_uint d)))
      with (45 :: JS.utf16 0 0 (NilZero.string_of_uint d)).
    constructor; [now left | apply D].
Qed.

(** ** How errors are told apart *)

(** The message of a status error only has a connection-failure marker
    when the body of the response has one. *)
Lemma statusError_connection_failure (st : Z) (errText : jsstring) :
  is_connection_failure (statusError st errText) =
  includes (js "Failed to fetch") errText
  || includes (js "Connection refused") errText.
Proof.
  unfold is_connection_failure, statusError. cbn [message].
  assert (P : forall c, c = 70 \/ c = 67 ->
    Forall (fun x => x <> c) (js "请求失败 (Status " ++ ofZ st ++ js "): ")).
  { intros c Hc. apply Forall_app. split; [|apply Forall_app; split].
    - vm_compute. repeat constructor; destruct Hc; subst c; discriminate.
    - eapply Forall_impl; [|apply ofZ_characters]. cbn. intros x Hx. lia.
    - vm_compute. repeat constructor; destruct Hc; subst c; discriminate. }
  replace (js "请求失败 (Status " ++ ofZ st ++ js "): " ++ errText)
    with ((js "请求失败 (Status " ++ ofZ st ++ js "): ") ++ errText)
    by now rewrite <- !app_assoc.
  change (js "Failed to fetch") with (70 :: js "ailed to fetch").
  change (js "Connection refused") with (67 :: js "onnection refused").
  rewrite !includes_skip_prefix by (apply P; auto).
  reflexivity.
Qed.

Section FetchFacts.

Variable World : Type.
Variable fetch : jsstring -> World -> fetch_outcome * World.
Variables targetUrl cookie : jsstring.
Variable w : World.

(** When both parameters can be encoded, [fetch] is called once, for the
    resource of the proxy, and its outcome goes through the [try] block
    and the [catch] clause. *)
Lemma fetchViaLocalServer_encoded (U C : jsstring) :
  encodeURIComponent targetUrl = Ok U ->
  encodeURIComponent cookie = Ok C ->
  fetchViaLocalServer fetch targetUrl cookie w =
  (rethrow (response_body (fst (fetch (proxy_resource U C) w))),
   snd (fetch (proxy_resource U C) w)).
Proof.
  intros HU HC. unfold fetchViaLocalServer, proxy_resource.
  rewrite HC, HU. now destruct (fetch _ w).
Qed.

(** X1.  [fetchViaLocalServer] returns markup exactly when both
    parameters can be URI-encoded, the response of the proxy is [ok] and
    its text can be read; what it returns is that text, unchanged. *)
Theorem fetch_returns_markup_iff_ok :
  forall html : jsstring,
    fst (fetchViaLocalServer fetch targetUrl cookie w) = Ok html
    <-> exists U C response,
          encodeURIComponent targetUrl = Ok U
          /\ encodeURIComponent cookie = Ok C
          /\ fst (fetch (proxy_resource U C) w) = Resolved response
          /\ ok response = true
          /\ text response = Ok html.
Proof.
  intros html. split.
  - unfold fetchViaLocalServer.
    destruct (encodeURIComponent cookie) as [C|e] eqn:EC; [|discriminate].
    destruct (encodeURIComponent targetUrl) as [U|e] eqn:EU; [|discriminate].
    fold (proxy_resource U C).
    destruct (fetch (proxy_resource U C) w) as [o w'] eqn:Ef. cbn [fst].
    intros H. exists U, C.
    destruct o as [e|response]; cbn [response_body] in H.
    + cbn [rethrow] in H. destruct (is_connection_failure e); discriminate.
    + exists response.
      split; [reflexivity|]. split; [reflexivity|].
      split; [now rewrite Ef|].
      destruct (ok response); cbn [negb] in H.
      * split; [reflexivity|].
        destruct (text response) as [t|e]; cbn [rethrow] in H; [exact H|].
        destruct (is_connection_failure e); discriminate.
      * exfalso.
        destruct (status response =? 403);
          [|destruct (status response =? 418)];
          cbn [rethrow] in H;
          destruct (is_connection_failure _); discriminate.
  - intros (U & C & response & HU & HC & Hf & Hok & Ht).
    rewrite (fetchViaLocalServer_encoded U C HU HC). cbn [fst].
    rewrite Hf. cbn [response_body]. rewrite Hok, Ht. reflexivity.
Qed.

(** X2.  A response that is not [ok] always makes [fetchViaLocalServer]
    throw: the fixed error of status 403 or 418 whatever the body says;
    for any other status the error that quotes the status and the body,
    unless the body contains [Failed to fetch] or [Connection refused],
    in which case the error thrown is the one about the local proxy. *)
Theorem fetch_error_of_bad_status :
  forall (U C : jsstring) (response : Response),
    encodeURIComponent targetUrl = Ok U ->
    encodeURIComponent cookie = Ok C ->
    fst (fetch (proxy_resource U C) w) = Resolved response ->
    ok response = false ->
    fst (fetchViaLocalServer fetch targetUrl cookie w) =
    Thrown
      (if status response =? 403 then forbiddenError
       else if status response =? 418 then teapotError
       else if includes (js "Failed to fetch") (error_text response)
               || includes (js "Connection refused") (error_text response)
            then proxyError
            else statusError (status response) (error_text response)).
Proof.
  intros U C response HU HC Hf Hok.
  rewrite (fetchViaLocalServer_encoded U C HU HC). cbn [fst].
  rewrite Hf. cbn [response_body]. rewrite Hok. cbn [negb].
  fold (error_text response).
  destruct (status response =? 403); [reflexivity|].
  destruct (status response =? 418); [reflexivity|].
  cbn [rethrow]. rewrite statusError_connection_failure.
  now destruct (includes _ _ || includes _ _).
Qed.

End FetchFacts.

(** A response with status 502 whose body quotes a refused connection:
    the error thrown is the one about the local proxy. *)
Lemma fetch_error_of_bad_status_witness :
  fst (fetchViaLocalServer
         (fun _ (w : unit) =>
            (Resolved (mkResponse false 502
                         (Ok (js "upstream: Connection refused"))), w))
         (js "https://movie.douban.com/people/u1/collect") (js "c=1") tt)
  = Thrown proxyError.
Proof.
  rewrite (fetch_error_of_bad_status unit _
             (js "https://movie.douban.com/people/u1/collect") (js "c=1") tt
             (js "https%3A%2F%2Fmovie.douban.com%2Fpeople%2Fu1%2Fcollect")
             (js "c%3D1")
             (mkResponse false 502 (Ok (js "upstream: Connection refused"))));
    vm_compute; reflexivity.
Defined.

(** ** The resource asked of the proxy *)

Lemma unreserved_ranges (c : Z) :
  48 <= c <= 57 \/ 65 <= c <= 90 -> uri_unreserved c = true.
Proof.
  intros H. unfold uri_unreserved.
  destruct (Z.leb_spec 65 c), (Z.leb_spec c 90), (Z.leb_spec 48 c),
    (Z.leb_spec c 57); cbn [andb orb]; try reflexivity; lia.
Qed.

Lemma hex_digit_unreserved (d : Z) :
  0 <= d < 16 -> uri_unreserved (hex_digit d) = true.
Proof.
  intros H. apply unreserved_ranges. unfold hex_digit.
  destruct (Z.ltb_spec d 10); lia.
Qed.

Lemma percent_safe (b : Z) :
  0 <= b < 256 -> Forall (fun c => uri_safe c = true) (percent b).
Proof.
  intros H. unfold percent, uri_safe.
  repeat constructor.
  - rewrite hex_digit_unreserved; [reflexivity|].
    Z.div_mod_to_equations. lia.
  - rewrite hex_digit_unreserved; [reflexivity|].
    Z.div_mod_to_equations. lia.
Qed.

Lemma utf8_bytes (cp : Z) :
  0 <= cp < 1114112 ->
  Forall (fun b => 0 <= b < 256) (utf8_of_codepoint cp).
Proof.
  intros H. unfold utf8_of_codepoint.
  destruct (Z.ltb_spec cp 128); [|destruct (Z.ltb_spec cp 2048);
    [|destruct (Z.ltb_spec cp 65536)]];
    repeat constructor; Z.div_mod_to_equations; lia.
Qed.

Lemma escape_codepoint_safe (cp : Z) :
  0 <= cp < 1114112 ->
  Forall (fun c => uri_safe c = true) (escape_codepoint cp).
Proof.
  intros H. unfold escape_codepoint.
  apply List.Forall_flat_map.
  eapply Forall_impl; [|apply (utf8_bytes cp H)].
  intros b Hb. now apply percent_safe.
Qed.

Lemma prepend_safe (a : jsstring) (r : result jsstring) (t : jsstring) :
  Forall (fun c => uri_safe c = true) a ->
  (forall y, r = Ok y -> Forall (fun c => uri_safe c = true) y) ->
  prepend a r = Ok t -> Forall (fun c => uri_safe c = true) t.
Proof.
  intros Ha Hr H. apply prepend_Ok in H as (y & -> & ->).
  apply Forall_app. split; [exact Ha | now apply Hr].
Qed.

(** What [encodeURIComponent] returns is made of unreserved characters
    and percent signs. *)
Lemma encodeURIComponent_safe_bounded (n : nat) :
  forall s t,
    (List.length s <= n)%nat ->
    valid_string s ->
    encodeURIComponent s = Ok t ->
    Forall (fun c => uri_safe c = true) t.
Proof.
  induction n as [|n IH]; intros s t Hn Hv Hs.
  - destruct s; [|cbn in Hn; lia]. cbn in Hs. injection Hs as <-. constructor.
  - destruct s as [|c rest].
    + cbn in Hs. injection Hs as <-. constructor.
    + cbn [List.length] in Hn. inversion Hv as [|? ? Hc Hrest]; subst.
      cbn [encodeURIComponent] in Hs.
      destruct (uri_unreserved c) eqn:Eu.
      { eapply prepend_safe; [| |exact Hs].
        - constructor; [|constructor]. unfold uri_safe. now rewrite Eu.
        - intros y Hy. apply (IH rest y); auto; lia. }
      destruct (is_low_surrogate c); [discriminate|].
      destruct (is_high_surrogate c) eqn:Eh.
      * destruct rest as [|d rest']; [discriminate|].
        destruct (is_low_surrogate d) eqn:El; [|discriminate].
        inversion Hrest as [|? ? Hd Hrest']; subst.
        cbn [List.length] in Hn.
        eapply prepend_safe; [| |exact Hs].
        -- apply escape_codepoint_safe.
           unfold is_high_surrogate in Eh. unfold is_low_surrogate in El.
           lia.
        -- intros y Hy. apply (IH rest' y); auto; lia.
      * eapply prepend_safe; [| |exact Hs].
        -- apply escape_codepoint_safe. lia.
        -- intros y Hy. apply (IH rest y); auto; lia.
Qed.

Lemma encodeURIComponent_safe (s t : jsstring) :
  valid_string s ->
  encodeURIComponent s = Ok t ->
  Forall (fun c => uri_safe c = true) t.
Proof. apply (encodeURIComponent_safe_bounded (List.length s)). lia. Qed.

Lemma encodeURIComponent_throws (s : jsstring) (e : Error) :
  encodeURIComponent s = Thrown e -> e = URIError.
Proof.
  assert (P : forall a r, prepend a r = Thrown e -> r = Thrown e).
  { intros a [y|e']; cbn [prepend]; [discriminate | auto]. }
  assert (G : forall n s, (List.length s <= n)%nat ->
                encodeURIComponent s = Thrown e -> e = URIError).
  { clear s. induction n as [|n IH]; intros s Hn Hs.
    - destruct s; [discriminate | cbn in Hn; lia].
    - destruct s as [|c rest]; [discriminate|].
      cbn [List.length] in Hn. cbn [encodeURIComponent] in Hs.
      destruct (uri_unreserved c).
      { apply P in Hs. apply (IH rest); [lia | exact Hs]. }
      destruct (is_low_surrogate c); [congruence|].
      destruct (is_high_surrogate c).
      + destruct rest as [|d rest']; [congruence|].
        destruct (is_low_surrogate d); [|congruence].
        cbn [List.length] in Hn.
        apply P in Hs. apply (IH rest'); [lia | exact Hs].
      + apply P in Hs. apply (IH rest); [lia | exact Hs]. }
  apply (G (List.length s)). lia.
Qed.

(** X3.  Over a network that writes down what it is asked, for a target
    address and a cookie made of 16-bit code units:
    [fetchViaLocalServer] either asks for exactly one resource,
    [/fetch?url=U&cookie=C], where [U] and [C] are the encoded address and
    cookie and contain only unreserved characters and percent signs (so
    no [&], [=], [?] or [#] that could change the parameters); or one of
    the two cannot be encoded, and then nothing is asked and the error
    thrown is the URIError. *)
Theorem fetch_asks_one_safe_resource :
  forall (answer : jsstring -> fetch_outcome) (targetUrl cookie : jsstring)
         (w : list jsstring),
    valid_string targetUrl ->
    valid_string cookie ->
    let run := fetchViaLocalServer (recording answer) targetUrl cookie w in
    (exists U C,
        encodeURIComponent targetUrl = Ok U
        /\ encodeURIComponent cookie = Ok C
        /\ snd run = w ++ [proxy_resource U C]
        /\ Forall (fun c => uri_safe c = true) (U ++ C)
        /\ Forall (fun c => c <> 38 /\ c <> 61 /\ c <> 63 /\ c <> 35) (U ++ C))
    \/ ((encodable targetUrl = false \/ encodable cookie = false)
        /\ snd run = w
        /\ fst run = Thrown URIError).
Proof.
  intros answer targetUrl cookie w Ht Hc run. subst run.
  unfold encodable.
  destruct (encodeURIComponent cookie) as [C|e] eqn:EC.
  - destruct (encodeURIComponent targetUrl) as [U|e] eqn:EU.
    + left. exists U, C.
      rewrite (fetchViaLocalServer_encoded _ _ _ _ _ U C EU EC).
      cbn [snd fst recording].
      assert (Hs : Forall (fun c => uri_safe c = true) (U ++ C)).
      { apply Forall_app. split.
        - exact (encodeURIComponent_safe targetUrl U Ht EU).
        - exact (encodeURIComponent_safe cookie C Hc EC). }
      repeat split; auto.
      eapply Forall_impl; [|exact Hs]. cbn. intros c Hsafe.
      repeat split; intros ->; vm_compute in Hsafe; discriminate.
    + right. unfold fetchViaLocalServer. rewrite EC, EU. cbn [fst snd].
      apply encodeURIComponent_throws in EU as ->. auto.
  - right. unfold fetchViaLocalServer. rewrite EC. cbn [fst snd].
    apply encodeURIComponent_throws in EC as ->. auto.
Qed.

Lemma valid_string_check (s : jsstring) :
  forallb (fun c => (0 <=? c) && (c <? 65536)) s = true -> valid_string s.
Proof.
  intros H. apply Forall_forall. intros c Hc.
  rewrite forallb_forall in H. specialize (H c Hc). lia.
Qed.

(** The address of a first page and a cookie with a separator in it. *)
Lemma fetch_asks_one_safe_resource_witness :
  snd (fetchViaLocalServer (recording (fun _ => Fixtures.redirected))
         (js "https://movie.douban.com/people/u1/collect?start=0")
         (js "a=1&b=2") [])
  = [js "/fetch?url=https%3A%2F%2Fmovie.douban.com%2Fpeople%2Fu1%2Fcollect%3Fstart%3D0&cookie=a%3D1%26b%3D2"].
Proof.
  destruct (fetch_asks_one_safe_resource (fun _ => Fixtures.redirected)
              (js "https://movie.douban.com/people/u1/collect?start=0")
              (js "a=1&b=2") [])
    as [(U & C & HU & HC & Hw & _) | (_ & Hw & _)].
  - apply valid_string_check. vm_compute. reflexivity.
  - apply valid_string_check. vm_compute. reflexivity.
  - rewrite Hw. vm_compute in HU, HC.
    injection HU as <-. injection HC as <-. vm_compute. reflexivity.
  - vm_compute in Hw. discriminate.
Defined.

(* ================================================================== *)
(** * Further properties: the schedule and the outcome of a crawl *)

Section CrawlSchedule.

Variable World : Type.
Variable fetch : jsstring -> World -> fetch_outcome * World.
Variable host : platform.
Variables uid cookie : jsstring.

Local Abbreviation session := (Crawl.session World).
Local Abbreviation iteration := (page_iteration fetch host uid cookie).
Local Abbreviation loop := (page_loop fetch host uid cookie).
Local Abbreviation yield := (page_yield fetch host uid cookie).
Local Abbreviation request_events := (request_events uid cookie).
Local Abbreviation crawl := (crawlUserReviews fetch host uid cookie).
Local Abbreviation paced :=
  (fun u => [Slept (pacing_delay cookie); Requested u]).

(** The session after an iteration, by what the page yields. *)
Lemma iteration_session (cat : Category) (page : Z) (s : session) :
  exists w' tail,
    snd (iteration cat page s) =
    mkSession w' (trace s ++ request_events cat page s ++ map Logged tail)
      (allReviews s
       ++ match yield cat s with Ok items => items | Thrown _ => [] end)
      (match yield cat s with
       | Ok (_ :: _) => start s + pageSize
       | _ => start s
       end)
    /\ fst (iteration cat page s) =
       match yield cat s with
       | Ok (_ :: _) => Continue
       | _ => Stop
       end.
Proof.
  rewrite page_iteration_eq, after_request_eq.
  destruct (yield cat s) as [[|r items]|e]; cbn [fst snd].
  - destruct (page =? 1); unfold onLog, emit;
      cbn [world trace allReviews start]; rewrite app_nil_r.
    + eexists; exists [msg_empty cat]. rewrite <- app_assoc. auto.
    + eexists; exists []. cbn [map]. rewrite app_nil_r. auto.
  - cbn [world trace allReviews start].
    eexists; exists [msg_captured (List.length (r :: items))].
    rewrite <- app_assoc. auto.
  - unfold onLog, emit. cbn [world trace allReviews start].
    rewrite app_nil_r.
    eexists; exists [msg_stop cat e]. rewrite <- app_assoc. auto.
Qed.

Lemma network_events_app (a b : list event) :
  network_events (a ++ b) = network_events a ++ network_events b.
Proof. apply filter_app. Qed.

Lemma network_events_logged (msgs : list jsstring) :
  network_events (map Logged msgs) = [].
Proof. induction msgs; [reflexivity | assumption]. Qed.

Lemma network_events_request (cat : Category) (page : Z) (s : session) :
  network_events (request_events cat page s) =
  if 1 <? page then paced (page_url cat uid (start s))
  else [Requested (page_url cat uid (start s))].
Proof.
  unfold CrawlViews.request_events, pacing_events, pacing_delay.
  now destruct (1 <? page).
Qed.

(** The page loop, from a session whose offset is that of rank [k]: the
    addresses it requests are those of the ranks from [k] on, and the
    records it adds are the yields of the pages that had some. *)
Lemma page_loop_schedule (pages : list Z) :
  forall (s : session) (k : nat),
    start s = pageSize * Z.of_nat k ->
    exists (n : nat) (yields : list (list ReviewItem)),
      requests (trace (loop Movie pages s)) =
        requests (trace s) ++ map (nth_address uid) (seq k n)
      /\ n = Nat.min (List.length pages) (S (List.length yields))
      /\ allReviews (loop Movie pages s) = allReviews s ++ List.concat yields
      /\ Forall (fun y => y <> []
                          /\ exists html,
                               parseDoubanPage host html Movie = Ok y)
           yields
      /\ (Forall (fun p => 1 < p) pages ->
          network_events (trace (loop Movie pages s)) =
          network_events (trace s)
          ++ flat_map paced (map (nth_address uid) (seq k n))).
Proof.
  induction pages as [|page pages IH]; intros s k Hk.
  - exists 0%nat, []. cbn [page_loop seq map List.concat flat_map List.length].
    rewrite !app_nil_r. repeat split; auto.
  - cbn [page_loop].
    destruct (iteration_session Movie page s) as (w' & tail & Hs & Hc).
    assert (Hu : page_url Movie uid (start s) = nth_address uid k).
    { unfold nth_address. now rewrite Hk. }
    destruct (iteration Movie page s) as [c s1]. cbn [fst snd] in Hs, Hc.
    destruct (yield Movie s) as [[|r items]|e] eqn:Ey; subst c s1.
    + exists 1%nat, []. cbn [trace allReviews seq map List.concat List.length].
      rewrite !requests_app, requests_request_events, requests_logged,
        !app_nil_r, Hu.
      split; [reflexivity|]. split; [cbn [List.length]; lia|].
      split; [reflexivity|]. split; [constructor|].
      intros Hp. inversion Hp as [|? ? Hpage _]; subst.
      rewrite !network_events_app, network_events_request,
        network_events_logged, app_nil_r, Hu.
      apply Z.ltb_lt in Hpage. rewrite Hpage. cbn [flat_map].
      now rewrite app_nil_r.
    + match goal with
      | |- context [loop Movie pages ?s1] =>
          destruct (IH s1 (S k)) as (n & yields & Hr & Hn & Ha & Hy & Hp)
      end.
      { cbn [start]. rewrite Hk. lia. }
      cbn [trace allReviews] in Hr, Ha, Hp.
      exists (S n), ((r :: items) :: yields).
      rewrite Hr, Ha.
      rewrite !requests_app, requests_request_events, requests_logged,
        app_nil_r, Hu.
      cbn [seq map List.concat List.length].
      rewrite <- !app_assoc. cbn [app].
      split; [reflexivity|]. split; [rewrite Hn; cbn [List.length]; lia|].
      split; [reflexivity|]. split.
      * constructor; [|exact Hy]. split; [discriminate|].
        eapply page_yield_parsed. exact Ey.
      * intros Hpages. inversion Hpages as [|? ? Hpage Hrest]; subst.
        rewrite (Hp Hrest).
        rewrite !network_events_app, network_events_request,
          network_events_logged, app_nil_r, Hu.
        apply Z.ltb_lt in Hpage. rewrite Hpage. cbn [flat_map].
        now rewrite <- !app_assoc.
    + exists 1%nat, []. cbn [trace allReviews seq map List.concat List.length].
      rewrite !requests_app, requests_request_events, requests_logged,
        !app_nil_r, Hu.
      split; [reflexivity|]. split; [cbn [List.length]; lia|].
      split; [reflexivity|]. split; [constructor|].
      intros Hp. inversion Hp as [|? ? Hpage _]; subst.
      rewrite !network_events_app, network_events_request,
        network_events_logged, app_nil_r, Hu.
      apply Z.ltb_lt in Hpage. rewrite Hpage. cbn [flat_map].
      now rewrite app_nil_r.
Qed.

(** The crawl, by what its first page yields. *)
Lemma crawl_first_page (w : World) :
  exists (w' : World) (msgs tail : list jsstring),
    announce cookie w = mkSession w (map Logged msgs) [] 0
    /\ match yield Movie (announce cookie w) with
       | Ok (r :: items) =>
           snd (crawl w) =
           loop Movie [2; 3; 4]
             (mkSession w'
                (map Logged msgs ++ request_events Movie 1 (announce cookie w)
                 ++ map Logged tail)
                (r :: items) (pageSize * Z.of_nat 1))
       | _ =>
           snd (crawl w) =
           mkSession w'
             (map Logged msgs ++ request_events Movie 1 (announce cookie w)
              ++ map Logged tail)
             [] 0
       end.
Proof.
  rewrite crawl_eq. cbn [snd]. change page_numbers with [1; 2; 3; 4].
  cbn [page_loop].
  destruct (announce_eq _ cookie w) as (msgs & Ha & _).
  destruct (iteration_session Movie 1 (announce cookie w))
    as (w' & tail & Hs & Hc).
  exists w', msgs, tail. split; [exact Ha|].
  destruct (iteration Movie 1 (announce cookie w)) as [c s1].
  cbn [fst snd] in Hs, Hc.
  destruct (yield Movie (announce cookie w)) as [[|r items]|e];
    subst c s1; rewrite Ha; cbn [trace allReviews start app];
    rewrite ?app_nil_r; reflexivity.
Qed.

Lemma requests_first_page (w : World) (msgs tail : list jsstring) :
  requests (map Logged msgs ++ request_events Movie 1 (announce cookie w)
            ++ map Logged tail)
  = [nth_address uid 0].
Proof.
  destruct (announce_eq _ cookie w) as (msgs' & Ha & _).
  rewrite !requests_app, !requests_logged, requests_request_events, Ha.
  reflexivity.
Qed.

Lemma network_events_first_page (w : World) (msgs tail : list jsstring) :
  network_events (map Logged msgs
                  ++ request_events Movie 1 (announce cookie w)
                  ++ map Logged tail)
  = [Requested (nth_address uid 0)].
Proof.
  destruct (announce_eq _ cookie w) as (msgs' & Ha & _).
  rewrite !network_events_app, !network_events_logged,
    network_events_request, Ha.
  reflexivity.
Qed.

(** X4.  Whatever the network answers, a crawl requests at least one and
    at most four pages, and the pages it requests are the first ones of
    the listing of the user, in order: the addresses with [start=0],
    [start=15], [start=30] and [start=45] of the movie subdomain. *)
Theorem crawl_requests_leading_pages :
  forall w : World,
    exists n : nat,
      (1 <= n <= 4)%nat
      /\ requests (trace (snd (crawl w))) = map (nth_address uid) (seq 0 n).
Proof.
  intros w.
  destruct (crawl_first_page w) as (w' & msgs & tail & Ha & H).
  destruct (yield Movie (announce cookie w)) as [[|r items]|e].
  - exists 1%nat. rewrite H. cbn [trace]. rewrite requests_first_page.
    split; [lia | reflexivity].
  - rewrite H.
    match goal with
    | |- context [loop Movie [2; 3; 4] ?s1] =>
        destruct (page_loop_schedule [2; 3; 4] s1 1 eq_refl)
          as (n & yields & Hr & Hn & _)
    end.
    exists (S n). rewrite Hr. cbn [trace]. rewrite requests_first_page.
    split; [cbn [List.length] in Hn; lia | reflexivity].
  - exists 1%nat. rewrite H. cbn [trace]. rewrite requests_first_page.
    split; [lia | reflexivity].
Qed.

(** X5.  The requests of a crawl are paced: nothing is awaited before the
    first request, and before every later request [sleep] is called
    exactly once, with 1500 ms when a cookie was given and 3000 ms when
    the cookie is empty. *)
Theorem crawl_sleeps_between_requests :
  forall w : World,
    exists (first : jsstring) (later : list jsstring),
      requests (trace (snd (crawl w))) = first :: later
      /\ network_events (trace (snd (crawl w))) =
         Requested first :: flat_map paced later.
Proof.
  intros w.
  destruct (crawl_first_page w) as (w' & msgs & tail & Ha & H).
  destruct (yield Movie (announce cookie w)) as [[|r items]|e].
  - exists (nth_address uid 0), []. rewrite H. cbn [trace].
    now rewrite requests_first_page, network_events_first_page.
  - rewrite H.
    match goal with
    | |- context [loop Movie [2; 3; 4] ?s1] =>
        destruct (page_loop_schedule [2; 3; 4] s1 1 eq_refl)
          as (n & yields & Hr & _ & _ & _ & Hp)
    end.
    exists (nth_address uid 0), (map (nth_address uid) (seq 1 n)).
    rewrite Hr, Hp by (repeat constructor; lia). cbn [trace].
    now rewrite requests_first_page, network_events_first_page.
  - exists (nth_address uid 0), []. rewrite H. cbn [trace].
    now rewrite requests_first_page, network_events_first_page.
Qed.



End CrawlSchedule.

(* ================================================================== *)
(** * Further properties: the proxy *)

Import Proxy.

Lemma redirect_is_valid (st : Z) :
  is_redirect st = true -> validateStatus st = true.
Proof. unfold is_redirect, validateStatus. lia. Qed.

Section ProxyFacts.

Variable Data : Type.
Variable falsy : Data -> bool.
Variable send : Z -> Data -> reply.
Variable hostname : jsstring -> option jsstring.
Variable upstream : upstream_request -> upstream_outcome Data.
Variable parse_query : jsstring -> request.
Variable World : Type.

Local Abbreviation network :=
  (served Data falsy send hostname upstream parse_query World).

Section Through.

Variables targetUrl cookie U C : jsstring.
Variable w : World.
Hypothesis encoded_url : encodeURIComponent targetUrl = Ok U.
Hypothesis encoded_cookie : encodeURIComponent cookie = Ok C.
Hypothesis read_back :
  parse_query (proxy_resource U C) = mkRequest (Some targetUrl) (Some cookie).
Hypothesis some_url : targetUrl <> [].

(** The crawler gets what the route answers for its address and cookie. *)
Lemma fetch_served :
  fetchViaLocalServer network targetUrl cookie w =
  (rethrow
     (response_body
        (Resolved
           (browser_response
              (fetch_route Data falsy send hostname upstream
                 (mkRequest (Some targetUrl) (Some cookie)))))), w).
Proof.
  rewrite (fetchViaLocalServer_encoded _ _ _ _ _ U C encoded_url
             encoded_cookie).
  unfold served. cbn [fst snd]. now rewrite read_back.
Qed.

(** A site that redirects: the crawler gets the error of status 403. *)
Lemma fetch_redirected (st : Z) (data : Data) :
  upstream (upstream_request_of hostname targetUrl (Some cookie))
    = Answered st data ->
  is_redirect st = true ->
  fetchViaLocalServer network targetUrl cookie w = (Thrown forbiddenError, w).
Proof.
  intros Hup Hr. rewrite fetch_served. f_equal.
  unfold fetch_route. cbn [query_url query_cookie].
  destruct targetUrl as [|c t]; [now destruct some_url|]. cbn [truthy negb].
  rewrite Hup. cbn [axios_get].
  rewrite (redirect_is_valid st Hr), Hr. vm_compute. reflexivity.
Qed.

End Through.

(** X11.  A redirect of the site is never passed on.  [axios] does not
    follow it and resolves, since [validateStatus] accepts 301 and 302;
    the route then answers with status 403 and the text of line 50,
    whatever the site sent with the redirect.  An error of [axios] never
    carries a redirect, so the answer of line 59 is never sent. *)
Theorem proxy_refuses_redirects :
  forall (req : request) (url : jsstring) (st : Z) (data : Data),
    query_url req = Some url ->
    url <> [] ->
    upstream (upstream_request_of hostname url (query_cookie req))
      = Answered st data ->
    is_redirect st = true ->
    axios_get Data (Answered st data) = AxiosResolved st data
    /\ fetch_route Data falsy send hostname upstream req = redirectedReply
    /\ reply_status redirectedReply = 403
    /\ forall o st' data' msg,
         axios_get Data o = AxiosRejected (Some (st', data')) msg ->
         is_redirect st' = false.
Proof.
  intros req url st data Hq Hne Hup Hr.
  assert (Ha : axios_get Data (Answered st data) = AxiosResolved st data).
  { cbn [axios_get]. now rewrite (redirect_is_valid st Hr). }
  split; [exact Ha|]. split; [|split; [reflexivity|]].
  - unfold fetch_route. rewrite Hq.
    destruct url as [|c t]; [congruence|]. cbn [truthy negb].
    now rewrite Hup, Ha, Hr.
  - intros [st0 d0|m] st' data' msg; cbn [axios_get]; [|discriminate].
    destruct (validateStatus st0) eqn:Ev; [discriminate|].
    intros [= <- <- _].
    destruct (is_redirect st0) eqn:Er; [|reflexivity].
    apply redirect_is_valid in Er. congruence.
Qed.

(** X12.  Through the running proxy, when the server reads back the
    address and the cookie that were encoded, [fetchViaLocalServer]
    - throws the error of status 403 when the site redirects (301 or
      302): the explanation the proxy sends with it is dropped;
    - throws the error of status 500 with the text [Network Error] when
      the site cannot be reached, and not the error about the local
      proxy. *)
Theorem fetch_through_proxy :
  forall (targetUrl cookie U C : jsstring) (w : World),
    encodeURIComponent targetUrl = Ok U ->
    encodeURIComponent cookie = Ok C ->
    parse_query (proxy_resource U C)
      = mkRequest (Some targetUrl) (Some cookie) ->
    targetUrl <> [] ->
    match upstream (upstream_request_of hostname targetUrl (Some cookie)) with
    | Answered st data =>
        is_redirect st = true ->
        fetchViaLocalServer network targetUrl cookie w
        = (Thrown forbiddenError, w)
    | Unreachable _ =>
        fetchViaLocalServer network targetUrl cookie w
        = (Thrown (statusError 500 (js "Network Error")), w)
        /\ statusError 500 (js "Network Error") <> proxyError
    end.
Proof.
  intros targetUrl cookie U C w HU HC Hq Hne.
  destruct (upstream (upstream_request_of hostname targetUrl (Some cookie)))
    as [st data|msg] eqn:Hup.
  - intros Hr.
    exact (fetch_redirected targetUrl cookie U C w HU HC Hq Hne st data
             Hup Hr).
  - split; [|vm_compute; discriminate].
    rewrite (fetch_served targetUrl cookie U C w HU HC Hq). f_equal.
    unfold fetch_route. cbn [query_url query_cookie].
    destruct targetUrl as [|c t]; [congruence|]. cbn [truthy negb].
    rewrite Hup. vm_compute. reflexivity.
Qed.

(** X13.  When the site redirects the first page of the listing (as it
    does for a visitor it does not let in), a crawl through the proxy
    requests that page only, logs that the category stopped on the error
    of status 403, and fails with the error of the empty result. *)
Theorem crawl_of_redirected_listing :
  forall (host : platform) (uid cookie U C : jsstring)
         (w : World) (st : Z) (data : Data),
    encodeURIComponent (page_url Movie uid 0) = Ok U ->
    encodeURIComponent cookie = Ok C ->
    parse_query (proxy_resource U C)
      = mkRequest (Some (page_url Movie uid 0)) (Some cookie) ->
    upstream (upstream_request_of hostname (page_url Movie uid 0) (Some cookie))
      = Answered st data ->
    is_redirect st = true ->
    let run := crawlUserReviews network host uid cookie w in
    fst run = Thrown emptyError
    /\ requests (trace (snd run)) = [page_url Movie uid 0]
    /\ last (logs (trace (snd run))) [] = msg_stop Movie forbiddenError.
Proof.
  intros host uid cookie U C w st data HU HC Hq Hup Hr run. subst run.
  rewrite crawl_eq. cbn [fst snd].
  destruct (announce_eq _ cookie w) as (msgs & Ha & _).
  assert (Hy : page_yield network host uid cookie Movie (announce cookie w)
               = Thrown forbiddenError).
  { unfold page_yield. rewrite Ha. cbn [start world].
    rewrite (fetch_redirected _ _ U C w HU HC Hq) with (st := st)
                                                        (data := data);
      [reflexivity | discriminate | exact Hup | exact Hr]. }
  change page_numbers with [1; 2; 3; 4].
  rewrite (page_loop_failure _ _ _ _ _ _ _ _ _ _ Hy).
  rewrite Ha. cbn [trace allReviews start].
  split; [reflexivity|]. split.
  - rewrite !requests_app, requests_logged, requests_request_events.
    reflexivity.
  - rewrite app_assoc, logs_app. cbn [logs flat_map app].
    now rewrite last_last.
Qed.

End ProxyFacts.

(** A site that answers every request with a redirect: the route answers
    with status 403.  The data of a response is taken to be its text. *)
Lemma proxy_refuses_redirects_witness :
  reply_status
    (fetch_route jsstring (fun d => negb (truthy d)) mkReply (fun _ => None)
       (fun _ => Answered 302 (js "<a href='/login'>moved</a>"))
       (mkRequest (Some (js "https://movie.douban.com/")) None))
  = 403.
Proof.
  destruct (proxy_refuses_redirects jsstring (fun d => negb (truthy d))
              mkReply (fun _ => None)
              (fun _ => Answered 302 (js "<a href='/login'>moved</a>"))
              (mkRequest (Some (js "https://movie.douban.com/")) None)
              (js "https://movie.douban.com/") 302
              (js "<a href='/login'>moved</a>"))
    as (_ & H & _).
  - reflexivity.
  - vm_compute. discriminate.
  - reflexivity.
  - reflexivity.
  - rewrite H. reflexivity.
Defined.

(** A site that answers every request with a redirect, and a server that
    reads the address of the first page of [u1] from any resource. *)
Lemma fetch_through_proxy_witness :
  fetchViaLocalServer
    (served jsstring (fun d => negb (truthy d)) mkReply (fun _ => None)
       (fun _ => Answered 302 [])
       (fun _ => mkRequest (Some (page_url Movie (js "u1") 0)) (Some []))
       unit)
    (page_url Movie (js "u1") 0) [] tt
  = (Thrown forbiddenError, tt).
Proof.
  pose proof (fetch_through_proxy jsstring (fun d => negb (truthy d)) mkReply
                (fun _ => None) (fun _ => Answered 302 [])
                (fun _ => mkRequest (Some (page_url Movie (js "u1") 0))
                            (Some []))
                unit (page_url Movie (js "u1") 0) []
                (js "https%3A%2F%2Fmovie.douban.com%2Fpeople%2Fu1%2Fcollect%3Fstart%3D0%26sort%3Dtime%26rating%3Dall%26filter%3Dall%26mode%3Dgrid")
                [] tt) as H.
  cbv beta iota in H.
  apply H.
  - vm_compute. reflexivity.
  - reflexivity.
  - reflexivity.
  - vm_compute. discriminate.
  - reflexivity.
Defined.

Lemma crawl_of_redirected_listing_witness :
  let run :=
    crawlUserReviews
      (served jsstring (fun d => negb (truthy d)) mkReply (fun _ => None)
         (fun _ => Answered 302 [])
         (fun _ => mkRequest (Some (page_url Movie (js "u1") 0)) (Some []))
         unit)
      Fixtures.fixture_host (js "u1") [] tt in
  fst run = Thrown emptyError
  /\ requests (trace (snd run)) = [page_url Movie (js "u1") 0].
Proof.
  intros run.
  assert (HU : encodeURIComponent (page_url Movie (js "u1") 0)
               = Ok (js "https%3A%2F%2Fmovie.douban.com%2Fpeople%2Fu1%2Fcollect%3Fstart%3D0%26sort%3Dtime%26rating%3Dall%26filter%3Dall%26mode%3Dgrid"))
    by (vm_compute; reflexivity).
  destruct (crawl_of_redirected_listing jsstring (fun d => negb (truthy d))
              mkReply (fun _ => None)
              (fun _ => Answered 302 [])
              (fun _ => mkRequest (Some (page_url Movie (js "u1") 0)) (Some []))
              unit Fixtures.fixture_host (js "u1") [] _ [] tt 302 []
              HU eq_refl eq_refl eq_refl eq_refl)
    as (H1 & H2 & _).
  split; [exact H1 | exact H2].
Defined.
